(* ===== verification/_CoqProject ===== *)
-Q . S2P
Prelude.v
Post.v
RustStr.v
RustFloat.v
RustIO.v
Fibonacci.v
FirstWord.v
Adder.v
Structs.v
Enums.v
MessageIndex.v
OpenFile.v
ModulePaths.v
Threads.v
Temperature.v
