(* ===== verification/Prelude.v ===== *)
(** * A verification library for marceloboeira/trpl

    The repository is a collection of Rust programs written while reading
    "The Rust Programming Language" ([src/chapters/chapter-N/...]).  Each
    program is small and self-contained; the one with real design content is
    the blog-post workflow of [chapter-17/example03.rs] (a [Post] whose
    lifecycle is a trait object [Box<dyn State>] with the variants [Draft],
    [PendingReview] and [Published]).  The others are arithmetic, string and
    enum exercises whose behaviour on machine integers, UTF-8 strings and
    panics is what makes them interesting to model.

    ** Layout (one file per component, in dependency order)

    - [Prelude] (this file): what the components share.
      - [outcome A]: the result of a Rust call, [Returns a], [Panics p] with
        the panic's reason, or [OutOfFuel] when the model's recursion bound
        (the stack) is exhausted; [let? x := c in k] is its bind.
      - [int_ty], [in_range], [checked] and [wrap]: the integer types of the
        sources ([i8], [i32], [u8], [u32], [u64]) as [Z] with their bounds;
        [checked] is the debug build's arithmetic (overflow panics with
        "attempt to add with overflow"), [wrap] the release build's two's
        complement wrap-around.
      - [star], the reflexive-transitive closure of a step relation, with
        its invariant lemma; the hint database [rust] and the tactic
        [outcome_simpl].
    - [Post]: [chapter-17/example03.rs].  The trait [State] is the class
      [LifecycleState.State] with one instance per struct ([Draft],
      [PendingReview], [Published]), each built from the two methods of
      its [impl] block ([Draft_request_review], ..., [Published_approve]);
      [Box<dyn State>] is the sum [DynState] over the three implementors
      and its dynamic dispatch [dyn_request_review]/[dyn_approve]; the
      struct [Post] is a record with [state : option DynState] and
      [content : string] and [Post.new], [Post.add_text],
      [Post.request_review], [Post.approve], [Post.content] translate the
      methods line by line (including the [Option::take] that empties the
      slot before it is refilled).  [Client.main] is the program's [main]
      with its three [assert_eq!]s.  A client call is a [call]; [run]
      executes a sequence of calls and [step]/[reachable] are the step
      relation and the states reachable from [Post::new()].
      Theorems: every reachable post is a [Draft] (so [PendingReview] and
      [Published] are unreachable through the public API); [content()] is
      the concatenation of the [add_text] arguments after any sequence of
      calls, and, as a refinement, every run is simulated by an abstract
      append-only buffer; the trait's transition table compared with the
      one the specification gives.
    - [RustStr], [RustFloat], [RustIO]: helper models of the standard
      library the programs call, written from its documented behaviour;
      they are not code of the repository.  [RustStr]: Rust's [str] over
      UTF-8 bytes (Stdlib [string]): [char_indices] (the decoder),
      [is_char_boundary], the panicking slice [&s[..i]], [trim],
      [<iN as FromStr>::from_str] with its [IntErrorKind]s, and the
      [Display] of integers ([show_Z]); lemmas on decoding (a concatenation
      decodes piecewise; ASCII text has one char per byte, other text
      fewer chars than bytes).  [RustFloat]: [<f32/f64 as FromStr>]
      ([Dec2Flt]: the grammar of [dec2flt], rounding to nearest even
      computed exactly with the Stdlib's [SpecFloat]), [Display] of
      [f32]/[f64] ([Flt2Dec]: the shortest digits that read back, written
      without an exponent) and the [f32] operations ([F32], [powi] as the
      compiler runtime computes it).  [RustIO]: standard input as the
      bytes not yet read, [read_line] (a line, newline included;
      [InvalidData] on bytes that are not UTF-8), [io::Error] with its
      [Debug] text, and [Result::expect].
    - [Fibonacci]: [chapter-3/.../fibonacci.rs].  [fibonacci] is the i32
      recursion with the debug build's overflow checks; its [fuel] is the
      stack depth.  Theorems: with fuel at least [n] it returns the
      mathematical Fibonacci number for [0 <= n <= 46] and panics with
      "attempt to add with overflow" for [n >= 47]; a negative argument
      never returns (it runs out of fuel, or panics on [n - 2] below
      [i32::MIN]); [main]'s output, and its two panics (input that is
      not UTF-8, a line that is not an [i32]).
    - [FirstWord]: [chapter-4/exercise1-r.rs].  [first_word] counts chars
      with [enumerate] but slices at that count as a byte index.
      Theorems: on any string it slices at the number of chars before the
      first space, and it returns the first word exactly when that word
      is ASCII (otherwise it panics or returns a strict prefix).
    - [Adder]: [chapter-11/adder/src/lib.rs] with its test module: each
      [#[test]] as a function to [outcome], and a runner that honours
      [#[should_panic(expected)]] and [#[ignore]].  Theorems: [Guess::new]
      accepts exactly [1..=100] and otherwise panics with its message;
      [add_two]'s [i32] overflow bound.
    - [Structs]: [chapter-5], [chapter-10/generics2.rs] ([largest], a
      Section over the comparison: it panics on an empty slice and
      otherwise returns a maximal element, for any strict order),
      [chapter-10/generics6.rs] ([Point<T>] and its [f32] distance),
      [chapter-13/example05.rs] and [chapter-18/example17.rs].
    - [Enums]: [chapter-6], [chapter-8/example3.rs] (the spreadsheet
      cells, floats printed with [Display]), [chapter-8/example6.rs],
      [chapter-19/example16.rs]; theorems: [sum_optionals]'s [i8]
      overflow and the agreement of the two [to_cents].
    - [MessageIndex]: the structs, the enum and [Message::call] of
      [chapter-8/example9.rs] (its [main] is not modelled, see below).
    - [Threads]: [chapter-16/example02.rs] as a step relation interleaving
      the two spawned loops and [main]'s exit.  The sleeps are not
      modelled: a sleep orders nothing, so every interleaving the step
      relation allows is one the scheduler may produce.  Theorem, by rule
      induction on an invariant: the possible printouts are exactly the
      interleavings of a prefix of each thread's lines.
    - [OpenFile]: [chapter-9/errors/src/result1.rs]: [File::open] against
      a file-system environment and the two arms of the [match]; [main]
      panics exactly when opening fails, with the error's [Debug] text.
    - [Temperature]: [chapter-3/.../temperature-converter.rs] with Rocq's
      primitive binary64 floats for [f64], [RustFloat] for reading and
      printing them.  Theorems: one pass of the loop on a valid and on an
      invalid choice, and the panic on input that is not UTF-8; at the
      end of the input the loop prints the menu forever.
    - [ModulePaths]: [chapter-7/my-project/src/main.rs].  The missing
      module's [clarinet] is a parameter (the lines it prints), called
      through both paths; [rand]'s [gen_range] is the class [Rand.Rng].
      No theorem: the program does not build as committed and its one
      output is a random draw.

    ** Bounds and fuel

    Integers are [Z] checked against their type's bounds on every
    arithmetic operation the source performs.  Recursion and endless
    loops take a [nat] bound: [fibonacci]'s [fuel] is the stack depth (the
    theorems give the fuel that suffices, [n], so no result is lost to
    it), and [Temperature.run] is a number of passes of a loop that has no
    exit; the theorems quantify over that number.  Runs of the thread and
    post state machines are finite sequences of steps ([star]).
    [Flt2Dec.display] tries at most 9 ([f32]) or 17 ([f64]) digits, the
    most a shortest representation needs; [F32.powi] halves an [i32]
    exponent at most 32 times.

    ** Not modelled

    The body of [sound::instrument::clarinet]: [chapter-7/my-project]
    declares [mod sound], whose file is not in the repository, so the
    program does not build as committed; [ModulePaths] takes what
    [clarinet] prints as a parameter.  The [rand] crate's algorithm.
    The [main] of [chapter-8/example9.rs]: lines 45-46 use [scores], which
    is not defined, so the file does not compile.
    The standard library itself: [RustStr], [RustFloat] and [RustIO] model
    only what the programs call, from its documentation.
    The operating system behind [File::open] is a parameter ([OpenFile.fs]),
    not a model of a file system.  Printing is the list of lines a
    program writes, not a stream of bytes. *)

From Stdlib Require Import ZArith List String Lia Bool.
Import ListNotations.

Declare Scope rust_scope.
Delimit Scope rust_scope with rust.
Create HintDb rust.
Create Rewrite HintDb rust_simpl.

(** ** Panics and results of Rust calls *)

(** The arithmetic operation whose overflow check fired. *)
Inductive arith_op : Set := OpAdd | OpSub | OpMul.

(** Why a Rust program panicked. *)
Inductive panic : Set :=
| ArithOverflow (op : arith_op)
| IndexOutOfBounds (index len : nat)
| SliceNotCharBoundary (index : nat)
| ExplicitPanic (msg : string)
| AssertionFailed (left right : string).

(** The result of running a Rust call in the model. *)
Inductive outcome (A : Type) : Type :=
| Returns (a : A)
| Panics (p : panic)
| OutOfFuel.
Arguments Returns {A} a.
Arguments Panics {A} p.
Arguments OutOfFuel {A}.

(** Rust's [Result<T, E>]. *)
Inductive result (A E : Type) : Type :=
| Ok (a : A)
| Err (e : E).
Arguments Ok {A E} a.
Arguments Err {A E} e.

Definition obind {A B : Type} (c : outcome A) (k : A -> outcome B) : outcome B :=
  match c with
  | Returns a => k a
  | Panics p => Panics p
  | OutOfFuel => OutOfFuel
  end.

Notation "'let?' x ':=' c 'in' k" := (obind c (fun x => k))
  (at level 10, x name, c at level 100, k at level 200) : rust_scope.

Lemma obind_returns {A B} (a : A) (k : A -> outcome B) :
  obind (Returns a) k = k a.
Proof. reflexivity. Qed.

Lemma obind_panics {A B} p (k : A -> outcome B) :
  obind (Panics p) k = Panics p.
Proof. reflexivity. Qed.

Lemma obind_out_of_fuel {A B} (k : A -> outcome B) :
  obind OutOfFuel k = OutOfFuel.
Proof. reflexivity. Qed.

#[export] Hint Rewrite @obind_returns @obind_panics @obind_out_of_fuel : rust_simpl.

(** ** Integer types *)

Inductive int_ty : Set := I8 | I32 | U8 | U32 | U64.

Definition int_bits (t : int_ty) : Z :=
  match t with I8 | U8 => 8 | I32 | U32 => 32 | U64 => 64 end.

Definition int_signed (t : int_ty) : bool :=
  match t with I8 | I32 => true | _ => false end.

Definition min_of (t : int_ty) : Z :=
  if int_signed t then - 2 ^ (int_bits t - 1) else 0.

Definition max_of (t : int_ty) : Z :=
  if int_signed t then 2 ^ (int_bits t - 1) - 1 else 2 ^ int_bits t - 1.

Definition in_range (t : int_ty) (z : Z) : bool :=
  (min_of t <=? z)%Z && (z <=? max_of t)%Z.

(** Debug-build arithmetic: a result outside the type panics. *)
Definition checked (t : int_ty) (op : arith_op) (z : Z) : outcome Z :=
  if in_range t z then Returns z else Panics (ArithOverflow op).

Definition add (t : int_ty) (a b : Z) : outcome Z := checked t OpAdd (a + b).
Definition sub (t : int_ty) (a b : Z) : outcome Z := checked t OpSub (a - b).

(** Release-build arithmetic: two's complement wrap-around. *)
Definition wrap (t : int_ty) (z : Z) : Z :=
  if int_signed t
  then ((z + 2 ^ (int_bits t - 1)) mod 2 ^ int_bits t - 2 ^ (int_bits t - 1))%Z
  else (z mod 2 ^ int_bits t)%Z.

Lemma in_range_spec t z :
  in_range t z = true <-> (min_of t <= z <= max_of t)%Z.
Proof. unfold in_range. rewrite andb_true_iff, !Z.leb_le. reflexivity. Qed.

Lemma checked_ok t op z :
  (min_of t <= z <= max_of t)%Z -> checked t op z = Returns z.
Proof. intros H. unfold checked. apply in_range_spec in H. now rewrite H. Qed.

Lemma checked_overflow t op z :
  ~ (min_of t <= z <= max_of t)%Z -> checked t op z = Panics (ArithOverflow op).
Proof.
  intros H. unfold checked. destruct (in_range t z) eqn:E; [|reflexivity].
  apply in_range_spec in E. contradiction.
Qed.

Lemma bounds_of t : ((min_of t < 0 /\ 0 < max_of t) \/ (min_of t = 0 /\ 0 < max_of t))%Z.
Proof. destruct t; cbv; [left|left|right|right|right]; split; reflexivity. Qed.

Lemma wrap_in_range t z : (min_of t <= wrap t z <= max_of t)%Z.
Proof.
  unfold wrap, min_of, max_of.
  destruct t; simpl int_signed; simpl int_bits; cbv iota;
    match goal with |- context [(?a mod ?m)%Z] =>
      pose proof (Z.mod_pos_bound a m) end; lia.
Qed.

Lemma wrap_small t z : (min_of t <= z <= max_of t)%Z -> wrap t z = z.
Proof.
  unfold wrap, min_of, max_of. intros H.
  destruct t; simpl int_signed in *; simpl int_bits in *; cbv iota in *;
    rewrite Z.mod_small; lia.
Qed.

#[export] Hint Resolve checked_ok checked_overflow wrap_in_range wrap_small : rust.

(** The bounds of each type, as rewrite rules for [lia]. *)
Create Rewrite HintDb int_bounds.
Lemma min_I8 : min_of I8 = (-128)%Z. Proof. reflexivity. Qed.
Lemma max_I8 : max_of I8 = 127%Z. Proof. reflexivity. Qed.
Lemma min_I32 : min_of I32 = (-2147483648)%Z. Proof. reflexivity. Qed.
Lemma max_I32 : max_of I32 = 2147483647%Z. Proof. reflexivity. Qed.
Lemma min_U8 : min_of U8 = 0%Z. Proof. reflexivity. Qed.
Lemma max_U8 : max_of U8 = 255%Z. Proof. reflexivity. Qed.
Lemma min_U32 : min_of U32 = 0%Z. Proof. reflexivity. Qed.
Lemma max_U32 : max_of U32 = 4294967295%Z. Proof. reflexivity. Qed.
Lemma min_U64 : min_of U64 = 0%Z. Proof. reflexivity. Qed.
Lemma max_U64 : max_of U64 = 18446744073709551615%Z. Proof. reflexivity. Qed.
#[export] Hint Rewrite min_I8 max_I8 min_I32 max_I32 min_U8 max_U8 min_U32 max_U32
  min_U64 max_U64 : int_bounds.

(** [lia] after replacing the bounds of the concrete types by numbers. *)
Ltac int_lia := autorewrite with int_bounds in *; lia.

(** Resolve the overflow checks of [add]/[sub] whose outcome [lia] decides. *)
Ltac int_arith :=
  unfold add, sub;
  repeat first
    [ rewrite checked_ok by int_lia
    | rewrite checked_overflow by int_lia ];
  cbn [obind].

(** ** Strings as the code has them: byte sequences *)

Lemma string_app_assoc (a b c : string) : ((a ++ b) ++ c = a ++ (b ++ c))%string.
Proof. induction a as [|x a IH]; simpl; [reflexivity | now rewrite IH]. Qed.

Lemma string_app_nil_r (a : string) : (a ++ "" = a)%string.
Proof. induction a as [|x a IH]; simpl; [reflexivity | now rewrite IH]. Qed.

Lemma string_length_app (a b : string) :
  String.length (a ++ b) = String.length a + String.length b.
Proof. induction a as [|x a IH]; simpl; [reflexivity | now rewrite IH]. Qed.

Lemma string_app_eq_empty (a b : string) :
  (a ++ b = "")%string <-> a = ""%string /\ b = ""%string.
Proof. destruct a, b; simpl; split; intuition congruence. Qed.

#[export] Hint Rewrite string_app_assoc string_app_nil_r string_length_app : rust_simpl.

(** ** Lists *)

Lemma map_snd_combine {A B} (l1 : list A) (l2 : list B) :
  List.length l2 <= List.length l1 -> map snd (combine l1 l2) = l2.
Proof.
  revert l2. induction l1 as [|a l1 IH]; intros [|b l2] H; cbn in *; try lia; auto.
  f_equal. apply IH. lia.
Qed.

(** [outcome_simpl] pushes binds through known results and simplifies. *)
Ltac outcome_simpl :=
  repeat (progress (cbn [obind] in *; autorewrite with rust_simpl in *)).

(** ** [Option::take]: the taken value and what is left in the slot *)

Definition option_take {A : Type} (slot : option A) : option A * option A :=
  (slot, None).

(** ** Transition sequences *)

Section Star.
Context {A : Type} (R : A -> A -> Prop).

(** Zero or more transitions. *)
Inductive star : A -> A -> Prop :=
| star_refl a : star a a
| star_step a b c : R a b -> star b c -> star a c.

Lemma star_one a b : R a b -> star a b.
Proof. intros H. eapply star_step; [exact H | apply star_refl]. Qed.

Lemma star_trans a b c : star a b -> star b c -> star a c.
Proof. induction 1; eauto using star. Qed.

Lemma star_right a b c : star a b -> R b c -> star a c.
Proof. intros H1 H2. eapply star_trans; [exact H1 | now apply star_one]. Qed.

(** A predicate preserved by every transition holds along every sequence. *)
Lemma star_invariant (P : A -> Prop) :
  (forall a b, P a -> R a b -> P b) -> forall a b, star a b -> P a -> P b.
Proof. intros Hpres a b Hs. induction Hs; eauto. Qed.
End Star.

#[export] Hint Constructors star : rust.
#[export] Hint Resolve star_one star_trans star_right : rust.
