(* ===== verification/Post.v ===== *)
(** * The blog-post workflow: [src/chapters/chapter-17/example03.rs]

    [Module LifecycleState] holds the three unit structs, the trait [State]
    as a class with one instance per struct, the trait object
    [Box<dyn State>] as the sum [DynState] and the dynamic dispatch of the
    two trait methods.  [Module Blog] is the struct [Post]; [Module PostImpl]
    its [impl] block, method by method; [Module Client] the program's [main],
    the calls a client can make and the states they reach.  [Module Spec]
    states the lifecycle table of the specification, against which the code
    is compared; [Module Buffer] is the abstract append-only text buffer
    that [content] refines. *)

From Stdlib Require Import String List Lia.
From S2P Require Import Prelude.
Import ListNotations.
Open Scope string_scope.

Module LifecycleState.

(** [struct Draft {}] (line 36), [struct PendingReview {}] (line 53),
    [struct Published {}] (line 65). *)
Record Draft : Set := mkDraft {}.
Record PendingReview : Set := mkPendingReview {}.
Record Published : Set := mkPublished {}.

(** [Box<dyn State>]: a box holding a value of one of the types that
    implement [State]; the constructor records the vtable. *)
Inductive DynState : Set :=
| BoxDraft (s : Draft)
| BoxPendingReview (s : PendingReview)
| BoxPublished (s : Published).

(** The six trait methods, one per [fn] of the three [impl State]
    blocks: each consumes its box and returns the box of the next state. *)

(** [Draft::request_review] (lines 44-46): [self]. *)
Definition Draft_request_review (self : Draft) : DynState := BoxDraft self.

(** [Draft::approve] (lines 48-50): [self]. *)
Definition Draft_approve (self : Draft) : DynState := BoxDraft self.

(** [PendingReview::request_review] (lines 56-58): [self]. *)
Definition PendingReview_request_review (self : PendingReview) : DynState :=
  BoxPendingReview self.

(** [PendingReview::approve] (lines 60-62): [Box::new(Published {})]. *)
Definition PendingReview_approve (_ : PendingReview) : DynState := BoxPublished mkPublished.

(** [Published::request_review] (lines 68-70): [self]. *)
Definition Published_request_review (self : Published) : DynState := BoxPublished self.

(** [Published::approve] (lines 72-74): [self]. *)
Definition Published_approve (self : Published) : DynState := BoxPublished self.

(** [trait State] (lines 38-41): both methods consume [self: Box<Self>]
    and return a [Box<dyn State>]. *)
Class State (T : Type) := {
  request_review : T -> DynState;
  approve : T -> DynState
}.

(** [impl State for Draft] (lines 43-51). *)
#[export] Instance State_Draft : State Draft := {
  request_review := Draft_request_review;
  approve := Draft_approve
}.

(** [impl State for PendingReview] (lines 55-63). *)
#[export] Instance State_PendingReview : State PendingReview := {
  request_review := PendingReview_request_review;
  approve := PendingReview_approve
}.

(** [impl State for Published] (lines 67-75). *)
#[export] Instance State_Published : State Published := {
  request_review := Published_request_review;
  approve := Published_approve
}.

(** Dynamic dispatch of [s.request_review()] and [s.approve()] on a
    [Box<dyn State>]: the call goes to the boxed type's implementation. *)
Definition dyn_request_review (s : DynState) : DynState :=
  match s with
  | BoxDraft d => request_review d
  | BoxPendingReview p => request_review p
  | BoxPublished p => request_review p
  end.

Definition dyn_approve (s : DynState) : DynState :=
  match s with
  | BoxDraft d => approve d
  | BoxPendingReview p => approve p
  | BoxPublished p => approve p
  end.

End LifecycleState.

Module Blog.
Import LifecycleState.

(** [pub struct Post { state: Option<Box<dyn State>>, content: String }]
    (lines 2-5). *)
Record Post : Set := mkPost {
  state : option DynState;
  content : string
}.
End Blog.

Module PostImpl.
Import LifecycleState Blog.

(** [Post::new] (lines 8-13). *)
Definition new : Post :=
  {| state := Some (BoxDraft mkDraft); content := EmptyString |}.

(** [add_text] (lines 15-17): [self.content.push_str(text)]. *)
Definition add_text (self : Post) (text : string) : Post :=
  {| state := self.(state); content := self.(content) ++ text |}.

(** [approve] (lines 19-23): [take] empties the slot; only when it held a
    state is the slot refilled with the transition's result. *)
Definition approve (self : Post) : Post :=
  let (taken, left) := option_take self.(state) in
  let self := {| state := left; content := self.(content) |} in
  match taken with
  | Some s => {| state := Some (dyn_approve s); content := self.(content) |}
  | None => self
  end.

(** [content] (lines 25-27): [&self.content], whatever the state. *)
Definition content (self : Post) : string := self.(Blog.content).

(** [request_review] (lines 29-33). *)
Definition request_review (self : Post) : Post :=
  let (taken, left) := option_take self.(state) in
  let self := {| state := left; Blog.content := self.(Blog.content) |} in
  match taken with
  | Some s => {| state := Some (dyn_request_review s); Blog.content := self.(Blog.content) |}
  | None => self
  end.
End PostImpl.

Module Client.
Import LifecycleState Blog PostImpl.

Definition salad : string := "I ate a salad for lunch today".

(** [assert_eq!(left, right)] on two [&str]. *)
Definition assert_eq (left right : string) : outcome unit :=
  if String.eqb left right then Returns tt
  else Panics (AssertionFailed left right).

(** [fn main] (lines 77-88). *)
Definition main : outcome unit :=
  let post := new in
  let post := add_text post salad in
  (let? _ := assert_eq "" (content post) in
   let post := request_review post in
   let? _ := assert_eq "" (content post) in
   let post := approve post in
   assert_eq salad (content post))%rust.

(** A call of the public API that changes the post. *)
Inductive call : Set :=
| AddText (text : string)
| RequestReview
| Approve.

Definition exec (p : Post) (c : call) : Post :=
  match c with
  | AddText t => add_text p t
  | RequestReview => request_review p
  | Approve => approve p
  end.

(** A client's calls, in order. *)
Definition run (p : Post) (cs : list call) : Post := fold_left exec cs p.

Inductive step : Post -> Post -> Prop :=
| step_exec p c : step p (exec p c).

Definition reachable (p : Post) : Prop := star step new p.

(** The arguments of the [add_text] calls, concatenated in call order. *)
Fixpoint texts (cs : list call) : string :=
  match cs with
  | [] => ""
  | AddText t :: cs' => t ++ texts cs'
  | _ :: cs' => texts cs'
  end.
End Client.

(** The lifecycle of the specification (its section 4.2), in which the
  content is visible only once published. *)
Module Spec.
Import LifecycleState.

Inductive lifecycle : Set := LDraft | LPendingReview | LPublished.

Definition spec_request_review (l : lifecycle) : lifecycle :=
  match l with LDraft => LPendingReview | l => l end.

Definition spec_approve (l : lifecycle) : lifecycle :=
  match l with LPendingReview => LPublished | l => l end.

Inductive event : Set := EvRequestReview | EvApprove.

Definition spec_event (e : event) : lifecycle -> lifecycle :=
  match e with
  | EvRequestReview => spec_request_review
  | EvApprove => spec_approve
  end.

Definition dyn_event (e : event) : DynState -> DynState :=
  match e with
  | EvRequestReview => dyn_request_review
  | EvApprove => dyn_approve
  end.

(** Which variant a trait object holds. *)
Definition tag (s : DynState) : lifecycle :=
  match s with
  | BoxDraft _ => LDraft
  | BoxPendingReview _ => LPendingReview
  | BoxPublished _ => LPublished
  end.

End Spec.

(** What the code does implement: an append-only buffer that is always
  readable, whatever the lifecycle. *)
Module Buffer.
Import LifecycleState Blog PostImpl Client.

Inductive buffer_step : string -> string -> Prop :=
| buffer_append b t : buffer_step b (b ++ t)
| buffer_stutter b : buffer_step b b.

(** A post implements buffer [b] when its state slot is filled and its
    [content()] is [b]. *)
Definition buffer_rel (p : Post) (b : string) : Prop :=
  state p <> None /\ content p = b.
End Buffer.

(** ** Theorems *)
Module PostProofs.
Import LifecycleState Blog PostImpl Client Spec Buffer.

Lemma draft_unique (d : Draft) : d = mkDraft.
Proof. now destruct d. Qed.

Lemma exec_state p c :
  state (exec p c) =
  match c with
  | AddText _ => state p
  | RequestReview => option_map dyn_request_review (state p)
  | Approve => option_map dyn_approve (state p)
  end.
Proof. destruct p as [[s|] b], c; reflexivity. Qed.

Lemma exec_content p c : content (exec p c) = content p ++ texts [c].
Proof.
  destruct p as [[s|] b], c; cbn; now rewrite ?string_app_nil_r.
Qed.

Lemma run_cons p c cs : run p (c :: cs) = run (exec p c) cs.
Proof. reflexivity. Qed.

Lemma run_content_from cs p : content (run p cs) = content p ++ texts cs.
Proof.
  revert p. induction cs as [|c cs IH]; intros p.
  - cbn. now rewrite string_app_nil_r.
  - rewrite run_cons, IH, exec_content, string_app_assoc.
    destruct c; cbn; now rewrite ?string_app_nil_r.
Qed.

Lemma reachable_run p cs : reachable p -> reachable (run p cs).
Proof.
  revert p. induction cs as [|c cs IH]; intros p Hp; [exact Hp|].
  rewrite run_cons. apply IH. eapply star_right; [exact Hp | constructor].
Qed.

(** C1. Every post a client can reach from [Post::new()] through
    [add_text], [request_review] and [approve] holds a [Draft] in its
    state slot: [Draft::request_review] returns [self], so the post never
    leaves [Draft], and [PendingReview] and [Published] are unreachable. *)
Theorem reachable_is_draft (p : Post) :
  reachable p -> state p = Some (BoxDraft mkDraft).
Proof.
  intros H.
  refine (star_invariant step (fun q => state q = Some (BoxDraft mkDraft)) _ new p H eq_refl).
  intros a b Ha Hs. destruct Hs as [a c].
  rewrite exec_state, Ha. destruct c; reflexivity.
Qed.

Lemma reachable_is_draft_witness :
  reachable (run new [AddText "a"; RequestReview; Approve]) /\
  state (run new [AddText "a"; RequestReview; Approve]) = Some (BoxDraft mkDraft).
Proof.
  assert (H : reachable (run new [AddText "a"; RequestReview; Approve]))
    by (apply reachable_run, star_refl).
  split; [exact H | apply reachable_is_draft; exact H].
Defined.

(** C2. After any sequence of calls on a fresh post, [content()] is the
    concatenation of the [add_text] arguments in call order, whatever the
    lifecycle state: the transitions never touch the buffer and
    [content()] does not look at the state. *)
Theorem run_content (cs : list call) : content (run new cs) = texts cs.
Proof. now rewrite run_content_from. Qed.


Lemma exec_simulates p b c :
  buffer_rel p b -> exists b', buffer_step b b' /\ buffer_rel (exec p c) b'.
Proof.
  intros [Hs Hc]. exists (b ++ texts [c]). split; [|split].
  - destruct c; cbn; rewrite ?string_app_nil_r; constructor.
  - rewrite exec_state. destruct c, (state p); cbn; congruence.
  - now rewrite exec_content, Hc.
Qed.

(** C3. Refinement: every sequence of steps of the post is simulated by
    a sequence of steps of an append-only buffer that is always readable;
    the simulation relation keeps the state slot filled and relates
    [content()] to the buffer. *)
Theorem post_refines_buffer (p q : Post) (b : string) :
  star step p q -> buffer_rel p b ->
  exists b', star buffer_step b b' /\ buffer_rel q b'.
Proof.
  intros Hs. revert b. induction Hs as [p|p p' q Hstep Hs IH]; intros b Hrel.
  - exists b. split; [apply star_refl | exact Hrel].
  - destruct Hstep as [p c].
    destruct (exec_simulates p b c Hrel) as (b1 & Hb1 & Hrel1).
    destruct (IH b1 Hrel1) as (b2 & Hb2 & Hrel2).
    exists b2. split; [eapply star_step; eauto | exact Hrel2].
Qed.

Lemma post_refines_buffer_witness :
  exists b', star buffer_step "" b' /\ buffer_rel (exec new (AddText "a")) b'.
Proof.
  apply (post_refines_buffer new (exec new (AddText "a")) "").
  - apply star_one. constructor.
  - split; [discriminate | reflexivity].
Defined.

(** C4. The trait's transition table agrees with the table of the
    specification on every variant and call except one: on a [Draft],
    [request_review] returns the [Draft] itself instead of a
    [PendingReview]. *)
Theorem transition_table_vs_spec (s : DynState) (e : event) :
  tag (dyn_event e s) = spec_event e (tag s) <->
  ~ (tag s = LDraft /\ e = EvRequestReview).
Proof. destruct s, e; cbn; intuition congruence. Qed.

(** [request_review] never changes a post: it takes the state out of
    its slot and puts back what the boxed state returns, which is the
    same state for every variant. *)
Theorem request_review_noop (p : Post) : request_review p = p.
Proof. destruct p as [[[d|r|u]|] b]; reflexivity. Qed.

(** [approve] on a post whose state is [PendingReview] publishes it
    and leaves its content unchanged. *)
Theorem approve_pending_publishes (p : Post) (r : PendingReview) :
  state p = Some (BoxPendingReview r) ->
  approve p = mkPost (Some (BoxPublished mkPublished)) (content p).
Proof. destruct p as [st b]. cbn. intros ->. reflexivity. Qed.

Lemma approve_pending_publishes_witness :
  state (mkPost (Some (BoxPendingReview mkPendingReview)) "x") =
    Some (BoxPendingReview mkPendingReview) /\
  approve (mkPost (Some (BoxPendingReview mkPendingReview)) "x") =
    mkPost (Some (BoxPublished mkPublished)) "x".
Proof.
  split; [reflexivity|].
  exact (approve_pending_publishes (mkPost (Some (BoxPendingReview mkPendingReview)) "x")
           mkPendingReview eq_refl).
Defined.

(** No call empties the state slot: after [add_text],
    [request_review] or [approve] the slot is [None] exactly when it was
    [None] before ([Option::take] is always followed by a refill). *)
Theorem exec_state_none_iff (p : Post) (c : call) :
  state (exec p c) = None <-> state p = None.
Proof. rewrite exec_state. destruct c, (state p); cbn; intuition congruence. Qed.




End PostProofs.
