(* ===== verification/RustStr.v ===== *)
(** * The [str] operations the programs call

    Rust's [String] and [&str] are UTF-8 byte sequences; the model is
    Stdlib's [string], a list of bytes, assumed valid UTF-8 as Rust
    guarantees.  This file models the standard-library operations that the
    sources call on them: [char_indices]/[chars] (UTF-8 decoding),
    [is_char_boundary] and the range slice [&s[..i]], [trim]
    ([char::is_whitespace] at both ends), [parse::<T>()] for the integer
    types ([from_str_radix] with radix 10) and the [Display] of integers.
    These are library code, not code of the repository: they are not
    mapped, and the components' theorems rest on the lemmas proved here. *)

From Stdlib Require Import ZArith List String Ascii Bool Lia.
From S2P Require Import Prelude.
Import ListNotations.
Local Open Scope Z_scope.
Local Open Scope bool_scope.

Module Str.

Definition byte_val (b : ascii) : Z := Z.of_nat (nat_of_ascii b).

(** UTF-8 decoding with byte offsets: [s.char_indices()].  [off] is the
    offset of the next byte, [start] that of the character being decoded,
    [acc] its bits so far and [pending] the continuation bytes still due. *)
Fixpoint decode (off start : nat) (acc : Z) (pending : nat) (s : string)
  : list (nat * Z) :=
  match s with
  | EmptyString => []
  | String b rest =>
    let v := byte_val b in
    match pending with
    | O =>
      if v <? 128 then (off, v) :: decode (S off) (S off) 0 0 rest
      else if v <? 224 then decode (S off) off (v mod 32) 1 rest
      else if v <? 240 then decode (S off) off (v mod 16) 2 rest
      else decode (S off) off (v mod 8) 3 rest
    | S O => (start, acc * 64 + v mod 64) :: decode (S off) (S off) 0 0 rest
    | S p => decode (S off) start (acc * 64 + v mod 64) p rest
    end
  end.

Definition char_indices (s : string) : list (nat * Z) := decode 0 0 0 0 s.

(** The decoder's state after [s]: the start of the pending character,
    its bits so far and the continuation bytes still due. *)
Fixpoint decode_state (off start : nat) (acc : Z) (pending : nat) (s : string)
  : nat * Z * nat :=
  match s with
  | EmptyString => (start, acc, pending)
  | String b rest =>
    let v := byte_val b in
    match pending with
    | O =>
      if v <? 128 then decode_state (S off) (S off) 0 0 rest
      else if v <? 224 then decode_state (S off) off (v mod 32) 1 rest
      else if v <? 240 then decode_state (S off) off (v mod 16) 2 rest
      else decode_state (S off) off (v mod 8) 3 rest
    | S O => decode_state (S off) (S off) 0 0 rest
    | S p => decode_state (S off) start (acc * 64 + v mod 64) p rest
    end
  end.

(** [s] ends on a character boundary: no continuation byte is due. *)
Definition complete (s : string) : bool :=
  let '(_, _, pending) := decode_state 0 0 0 0 s in Nat.eqb pending 0.

(** [s.chars()] *)
Definition chars (s : string) : list Z := map snd (char_indices s).

(** [char::len_utf8] *)
Definition len_utf8 (c : Z) : nat :=
  if c <? 128 then 1 else if c <? 2048 then 2 else if c <? 65536 then 3 else 4.

(** [str::is_char_boundary]: offset 0, the end, or a byte that is not a
    continuation byte [0b10xxxxxx]. *)
Definition is_char_boundary (s : string) (i : nat) : bool :=
  match i with
  | O => true
  | _ =>
    match get i s with
    | None => Nat.eqb i (String.length s)
    | Some b => negb ((128 <=? byte_val b) && (byte_val b <? 192))
    end
  end.

(** [&s[..i]]: panics when [i] is past the end or inside a character. *)
Definition slice_to (s : string) (i : nat) : outcome string :=
  if is_char_boundary s i then Returns (substring 0 i s)
  else if Nat.ltb (String.length s) i
  then Panics (IndexOutOfBounds i (String.length s))
  else Panics (SliceNotCharBoundary i).

(** [char::is_whitespace]: the Unicode White_Space property. *)
Definition is_whitespace (c : Z) : bool :=
  ((9 <=? c) && (c <=? 13)) || (c =? 32) || (c =? 133) || (c =? 160) ||
  (c =? 5760) || ((8192 <=? c) && (c <=? 8202)) || (c =? 8232) ||
  (c =? 8233) || (c =? 8239) || (c =? 8287) || (c =? 12288).

(** [str::trim]: the slice from the first to the end of the last
    character that is not whitespace. *)
Definition trim (s : string) : string :=
  match filter (fun oc => negb (is_whitespace (snd oc))) (char_indices s) with
  | [] => EmptyString
  | (o1, c1) :: rest =>
    let (oe, ce) := last rest (o1, c1) in
    substring o1 (oe + len_utf8 ce - o1) s
  end.

(** [core::num::IntErrorKind] *)
Inductive IntErrorKind : Set := Empty | InvalidDigit | PosOverflow | NegOverflow.

(** [(c as char).to_digit(10)] *)
Definition to_digit (b : ascii) : option Z :=
  let v := byte_val b in
  if (48 <=? v) && (v <=? 57) then Some (v - 48) else None.

(** The digit loop of [from_str_radix] with its checked arithmetic: the
    product is computed first, the digit is checked, then the product's
    overflow and the sum's. *)
Fixpoint parse_digits (t : int_ty) (neg : bool) (acc : Z) (s : string)
  : result Z IntErrorKind :=
  match s with
  | EmptyString => Ok acc
  | String c rest =>
    let mul := acc * 10 in
    let ovf := if neg then NegOverflow else PosOverflow in
    match to_digit c with
    | None => Err InvalidDigit
    | Some d =>
      if negb (in_range t mul) then Err ovf else
      let r := if neg then mul - d else mul + d in
      if negb (in_range t r) then Err ovf else parse_digits t neg r rest
    end
  end.

(** [<T as FromStr>::from_str] for an integer type [T]. *)
Definition from_str (t : int_ty) (s : string) : result Z IntErrorKind :=
  match s with
  | EmptyString => Err Empty
  | String "+" EmptyString | String "-" EmptyString => Err InvalidDigit
  | String "+" rest => parse_digits t false 0 rest
  | String "-" rest =>
    if int_signed t then parse_digits t true 0 rest else parse_digits t false 0 s
  | _ => parse_digits t false 0 s
  end.

(** [Display] of an integer: decimal digits, a [-] before a negative one. *)
Fixpoint digits_rev (fuel : nat) (n : Z) : list Z :=
  match fuel with
  | O => []
  | S f => (n mod 10) :: (if n <? 10 then [] else digits_rev f (n / 10))
  end.

Definition digit_char (d : Z) : ascii := ascii_of_nat (Z.to_nat (48 + d)).

Definition string_of_list (l : list ascii) : string :=
  fold_right String EmptyString l.

Definition show_nonneg (n : Z) : string :=
  string_of_list (map digit_char (rev (digits_rev (S (Z.to_nat (Z.log2 n))) n))).

Definition show_Z (z : Z) : string :=
  if z <? 0 then String "-" (show_nonneg (- z)) else show_nonneg z.

(** [str::contains] with a string pattern: [sub] occurs at some offset. *)
Fixpoint contains (s sub : string) : bool :=
  prefix sub s ||
  match s with
  | EmptyString => false
  | String _ rest => contains rest sub
  end.

(** [bool]'s [Display]. *)
Definition show_bool (b : bool) : string := if b then "true" else "false".

(** The line terminator that [read_line] keeps at the end of the line. *)
Definition newline : string := String (ascii_of_nat 10) EmptyString.

End Str.

(** ** Facts about the [str] model *)
Module StrFacts.
Import Str.

(** Decoding a concatenation: the second part is decoded from the state
    the first part leaves. *)
Lemma decode_app s1 s2 off start acc pending :
  decode off start acc pending (s1 ++ s2) =
  decode off start acc pending s1 ++
  (let '(st, ac, pe) := decode_state off start acc pending s1 in
   decode (off + String.length s1) st ac pe s2).
Proof.
  revert off start acc pending.
  induction s1 as [|b s1 IH]; intros off start acc pending.
  - cbn. now rewrite Nat.add_0_r.
  - cbn [String.length append]. rewrite <- Nat.add_succ_comm.
    destruct pending as [|[|p]]; cbn [decode decode_state];
      repeat match goal with |- context [if ?c then _ else _] => destruct c end;
      rewrite IH; reflexivity.
Qed.

(** At a character boundary the decoder's state is reset. *)
Lemma decode_state_boundary s off start acc pending :
  (pending = 0%nat -> start = off /\ acc = 0) ->
  let '(st, ac, pe) := decode_state off start acc pending s in
  pe = 0%nat -> st = (off + String.length s)%nat /\ ac = 0.
Proof.
  revert off start acc pending.
  induction s as [|b s IH]; intros off start acc pending Hinv.
  - cbn. intros ->. rewrite Nat.add_0_r. auto.
  - cbn [String.length]. rewrite <- Nat.add_succ_comm.
    destruct pending as [|[|p]]; cbn [decode_state];
      repeat match goal with |- context [if ?c then _ else _] => destruct c end;
      apply IH; intros; try discriminate; auto.
Qed.

(** The characters decoded do not depend on the offsets. *)
Lemma decode_chars_offsets s off start off' start' acc pending :
  map snd (decode off start acc pending s) = map snd (decode off' start' acc pending s).
Proof.
  revert off start off' start' acc pending.
  induction s as [|b s IH]; intros off start off' start' acc pending; [reflexivity|].
  destruct pending as [|[|p]]; cbn [decode];
    repeat match goal with |- context [if ?c then _ else _] => destruct c end;
    first [apply IH | cbn [map snd]; f_equal; apply IH].
Qed.

Lemma chars_app s1 s2 :
  complete s1 = true -> chars (s1 ++ s2) = chars s1 ++ chars s2.
Proof.
  unfold complete, chars, char_indices. intros Hc.
  rewrite decode_app, map_app. f_equal.
  pose proof (decode_state_boundary s1 0 0 0 0 (fun _ => conj eq_refl eq_refl)) as Hb.
  destruct (decode_state 0 0 0 0 s1) as [[st ac] pe].
  apply Nat.eqb_eq in Hc. destruct (Hb Hc) as [-> ->]. subst pe.
  apply decode_chars_offsets.
Qed.

Definition ascii_only (s : string) : bool :=
  forallb (fun b => byte_val b <? 128) (list_ascii_of_string s).

Lemma decode_ascii s off :
  ascii_only s = true ->
  decode off off 0 0 s = combine (seq off (String.length s)) (map byte_val (list_ascii_of_string s)) /\
  decode_state off off 0 0 s = ((off + String.length s)%nat, 0, 0%nat).
Proof.
  revert off. induction s as [|b s IH]; intros off Ha.
  - cbn. now rewrite Nat.add_0_r.
  - cbn in Ha. apply andb_true_iff in Ha as [Hb Ha].
    cbn [decode decode_state String.length]. rewrite Hb.
    destruct (IH (S off) Ha) as [H1 H2]. rewrite H1, H2, Nat.add_succ_r.
    split; reflexivity.
Qed.

Lemma ascii_complete s : ascii_only s = true -> complete s = true.
Proof. intros Ha. unfold complete. now rewrite (proj2 (decode_ascii s 0 Ha)). Qed.

Lemma chars_ascii s :
  ascii_only s = true -> chars s = map byte_val (list_ascii_of_string s).
Proof.
  intros Ha. unfold chars, char_indices. rewrite (proj1 (decode_ascii s 0 Ha)).
  rewrite map_snd_combine; [reflexivity|].
  rewrite length_seq, length_map. clear. induction s; cbn; lia.
Qed.

Lemma prefix_app (a b : string) : prefix a (a ++ b) = true.
Proof. induction a as [|c a IH]; cbn; [now destruct b|]. destruct (ascii_dec c c); [exact IH | congruence]. Qed.

(** A string contains every piece of a concatenation it is made of. *)
Lemma contains_middle (a b c : string) : contains (a ++ b ++ c) b = true.
Proof.
  induction a as [|x a IH].
  - cbn [append]. destruct (b ++ c)%string eqn:E;
      unfold contains; rewrite <- E, prefix_app; reflexivity.
  - cbn [append contains]. rewrite IH. now rewrite orb_true_r.
Qed.

(** Each byte yields at most one character. *)
Lemma decode_length_le s off start acc pending :
  (List.length (decode off start acc pending s) <= String.length s)%nat.
Proof.
  revert off start acc pending.
  induction s as [|b s IH]; intros off start acc pending; [cbn; lia|].
  destruct pending as [|[|p]]; cbn [decode String.length];
    repeat match goal with |- context [if ?c then _ else _] => destruct c end;
    cbn [List.length]; specialize (IH (S off)); eauto with arith.
Qed.

(** The first byte of at least 128 opens a multi-byte character and
    yields none, so a string that is not ASCII has fewer characters than
    bytes. *)
Lemma chars_length_non_ascii s :
  ascii_only s = false -> (List.length (chars s) < String.length s)%nat.
Proof.
  unfold chars, char_indices. rewrite length_map. intros Ha.
  enough (H : forall off, (List.length (decode off off 0 0 s) < String.length s)%nat) by apply H.
  revert Ha. induction s as [|b s IH]; intros Ha off; [discriminate|].
  cbn in Ha. cbn [decode String.length].
  destruct (byte_val b <? 128) eqn:Hb; cbn in Ha.
  - cbn [List.length]. specialize (IH Ha (S off)). lia.
  - pose proof (decode_length_le s (S off) off).
    repeat match goal with |- context [if ?c then _ else _] => destruct c end;
      eauto with arith.
Qed.

Lemma substring_length_le n s : (String.length (substring 0 n s) <= n)%nat.
Proof.
  revert s. induction n as [|n IH]; intros [|c s]; cbn; try lia.
  specialize (IH s). lia.
Qed.

End StrFacts.
