(* ===== verification/RustFloat.v ===== *)
(** * Rust's floating-point text conversions: [<f64 as FromStr>] and [<f64 as Display>]

    The programs read floats with [str::parse::<f64>()] and print [f64] and
    [f32] values with [{}].  Both conversions are standard-library code
    ([core::num::dec2flt] and [core::num::flt2dec]) whose results IEEE 754
    and Rust's documentation fix exactly, so they are modelled by their
    specification, executably, on the Stdlib's [SpecFloat.spec_float] (the
    view of a binary float as a sign, an integer mantissa and a binary
    exponent) for the two formats [F32] (24-bit mantissa) and [F64]
    (53-bit):
    - [Dec2Flt.from_str]: the grammar of [dec2flt] (sign, [inf], [infinity]
      and [nan] in any case, digits with an optional point and exponent)
      and its two errors; the value is the decimal rounded once to the
      nearest float, ties to even, computed exactly with [SpecFloat]'s own
      rounding ([binary_round], and [SFdiv_core_binary] for a negative
      power of ten, the core of its correctly rounded division).
    - [Flt2Dec.display]: [NaN], [inf], [-0]; otherwise the shortest digit
      string that reads back as the same float, the nearest to it among
      those of that length (ties up), which is what [flt2dec]'s Grisu
      with its Dragon fallback computes, written positionally without an
      exponent ([digits_to_dec_str] with no minimum of fractional digits).
    [F32] holds the [f32] operations the programs use, on [spec_float]
    with SpecFloat's binary32 instances.
    [to_f64] and [of_f64] move between [spec_float] and the primitive
    [float] of the kernel, the [f64] arithmetic of [Temperature]. *)

From Corelib Require Import PrimFloat SpecFloat FloatOps.
From Stdlib Require Import ZArith String Ascii Bool List Lia.
From S2P Require Import Prelude RustStr.
Import ListNotations.
Local Open Scope string_scope.
Local Open Scope Z_scope.
Local Set Warnings "-inexact-float".

Module FloatTy.

(** The two binary formats of Rust. *)
Inductive float_ty : Set := F32 | F64.

(** Bits of the mantissa, the hidden one included. *)
Definition prec_of (t : float_ty) : Z := match t with F32 => 24 | F64 => 53 end.

(** The exponent of the infinities. *)
Definition emax_of (t : float_ty) : Z := match t with F32 => 128 | F64 => 1024 end.

(** The longest shortest representation: 9 digits for [f32], 17 for [f64]. *)
Definition max_digits (t : float_ty) : nat := match t with F32 => 9 | F64 => 17 end.

(** Structural equality of two [spec_float]s (so [-0] and [0] differ). *)
Definition sf_eqb (x y : spec_float) : bool :=
  match x, y with
  | S754_zero a, S754_zero b => Bool.eqb a b
  | S754_infinity a, S754_infinity b => Bool.eqb a b
  | S754_nan, S754_nan => true
  | S754_finite a m e, S754_finite b m' e' => Bool.eqb a b && Pos.eqb m m' && Z.eqb e e'
  | _, _ => false
  end.

(** A decimal [m * 10^e] (with [m >= 0]) rounded to the nearest float of
    [t], ties to even; [neg] is the sign. *)
Definition round_decimal (t : float_ty) (neg : bool) (m e : Z) : spec_float :=
  let prec := prec_of t in
  let emax := emax_of t in
  match m with
  | Zpos mp =>
    if 0 <=? e then binary_round prec emax neg (mp * Z.to_pos (10 ^ e)) 0
    else
      let '(mz, ez, lz) := SFdiv_core_binary prec emax (Zpos mp) 0 (10 ^ (- e)) 0 in
      binary_round_aux prec emax neg mz ez lz
  | _ => S754_zero neg
  end.

(** The [f64] of the kernel as a [spec_float] and back. *)
Definition to_f64 (x : float) : spec_float := Prim2SF x.
Definition of_f64 (x : spec_float) : float := SF2Prim x.

End FloatTy.

(** [f32] arithmetic: IEEE binary32 operations, rounded to nearest even. *)
Module F32.

Definition prec : Z := FloatTy.prec_of FloatTy.F32.
Definition emax : Z := FloatTy.emax_of FloatTy.F32.

Definition add (a b : spec_float) : spec_float := SFadd prec emax a b.
Definition mul (a b : spec_float) : spec_float := SFmul prec emax a b.
Definition div (a b : spec_float) : spec_float := SFdiv prec emax a b.
Definition sqrt (a : spec_float) : spec_float := SFsqrt prec emax a.
Definition one : spec_float := SFone prec emax.

(** [f32::powi], as the compiler runtime computes it ([__powisf2]):
    square-and-multiply on the bits of the exponent, [b /= 2] rounding
    towards zero, and the reciprocal for a negative exponent.  An [i32]
    exponent is exhausted after 32 halvings. *)
Fixpoint powi_loop (fuel : nat) (a r : spec_float) (b : Z) : spec_float :=
  match fuel with
  | O => r
  | S f =>
    let r := if Z.odd b then mul r a else r in
    let b := Z.quot b 2 in
    if b =? 0 then r else powi_loop f (mul a a) r b
  end.

Definition powi (a : spec_float) (b : Z) : spec_float :=
  let r := powi_loop 32 a one b in
  if b <? 0 then div one r else r.

End F32.

Module Dec2Flt.
Import FloatTy.

(** [core::num::ParseFloatError]'s kinds. *)
Inductive FloatErrorKind : Set := Empty | Invalid.

(** The leading digits of [s]: their value appended to [acc], their number
    and what follows them. *)
Fixpoint take_digits (s : string) (acc : Z) (n : nat) : Z * nat * string :=
  match s with
  | String c rest =>
    match Str.to_digit c with
    | Some d => take_digits rest (acc * 10 + d) (S n)
    | None => (acc, n, s)
    end
  | EmptyString => (acc, n, s)
  end.

(** The exponent after [e] or [E]: an optional sign and at least one digit,
    up to the end of the text. *)
Definition parse_exponent (s : string) : option Z :=
  let '(neg, s) := match s with
                   | String "-" r => (true, r)
                   | String "+" r => (false, r)
                   | _ => (false, s)
                   end in
  match take_digits s 0 0 with
  | (v, S _, EmptyString) => Some (if neg then - v else v)
  | _ => None
  end.

(** [parse_number]: digits, an optional [.] and digits, at least one digit
    in all, and an optional exponent; the result is [(m, e)] for the
    value [m * 10^e]. *)
Definition parse_number (s : string) : option (Z * Z) :=
  let '(ip, ni, r1) := take_digits s 0 0 in
  let '(m, nf, r2) := match r1 with
                      | String "." r => take_digits r ip 0
                      | _ => (ip, O, r1)
                      end in
  if Nat.eqb (ni + nf) 0 then None else
  let ef := - Z.of_nat nf in
  match r2 with
  | EmptyString => Some (m, ef)
  | String c r =>
    if orb (Ascii.eqb c "e") (Ascii.eqb c "E")
    then option_map (fun e => (m, e + ef)) (parse_exponent r)
    else None
  end.

(** ASCII lower case. *)
Definition to_lower (c : ascii) : ascii :=
  let v := nat_of_ascii c in
  if andb (Nat.leb 65 v) (Nat.leb v 90) then ascii_of_nat (v + 32) else c.

Fixpoint lower (s : string) : string :=
  match s with
  | EmptyString => EmptyString
  | String c r => String (to_lower c) (lower r)
  end.

(** [<f32 as FromStr>::from_str] and [<f64 as FromStr>::from_str]. *)
Definition from_str (t : float_ty) (s : string) : result spec_float FloatErrorKind :=
  match s with
  | EmptyString => Err Empty
  | _ =>
    let '(neg, body) := match s with
                        | String "-" r => (true, r)
                        | String "+" r => (false, r)
                        | _ => (false, s)
                        end in
    let l := lower body in
    if String.eqb l "nan" then Ok S754_nan
    else if orb (String.eqb l "inf") (String.eqb l "infinity") then Ok (S754_infinity neg)
    else match parse_number body with
         | Some (m, e) => Ok (round_decimal t neg m e)
         | None => Err Invalid
         end
  end.

End Dec2Flt.

Module Flt2Dec.
Import FloatTy.

(** The number of decimal digits of [n > 0]. *)
Fixpoint ndigits (fuel : nat) (n : Z) : Z :=
  match fuel with
  | O => 0
  | S f => if n <? 10 then 1 else 1 + ndigits f (n / 10)
  end.

Definition digits10 (n : Z) : Z := ndigits (S (Z.to_nat (Z.log2 n))) n.

(** The exact value [num / den] of the float [m * 2^e]. *)
Definition exact (m : positive) (e : Z) : Z * Z :=
  if 0 <=? e then (Zpos m * 2 ^ e, 1) else (Zpos m, 2 ^ (- e)).

(** [k] with [10^(k-1) <= num / den < 10^k]. *)
Definition decimal_exponent (num den : Z) : Z :=
  let t := digits10 den in
  digits10 (num * 10 ^ t / den) - t.

(** [num / den * 10^s] as [q + r / d] with [0 <= r < d]. *)
Definition scaled (num den s : Z) : Z * Z * Z :=
  if 0 <=? s then let n := num * 10 ^ s in (n / den, n mod den, den)
  else let d := den * 10 ^ (- s) in (num / d, num mod d, d).

(** A carry ([9] rounded up to [10]) leaves trailing zeros: the digits
    are kept without them, as [c * 10^x] with [c] not a multiple of 10. *)
Fixpoint strip_zeros (fuel : nat) (c x : Z) : Z * Z :=
  match fuel with
  | O => (c, x)
  | S f => if andb (0 <? c) (c mod 10 =? 0) then strip_zeros f (c / 10) (x + 1) else (c, x)
  end.

(** The decimal [c * 10^x] reads back as the positive float [v]. *)
Definition reads_back (t : float_ty) (v : spec_float) (cx : Z * Z) : bool :=
  sf_eqb (round_decimal t false (fst cx) (snd cx)) v.

(** The [n]-digit candidates are [lo] and [lo + 1] times [10^(k-n)]; the
    first length at which one reads back as [v] gives the result, the
    upper one when it alone does or when it is nearer (ties up), as in
    [flt2dec::strategy::dragon::format_shortest].  A result [(c, x)]
    stands for [c * 10^x]. *)
Fixpoint shortest_from (t : float_ty) (v : spec_float) (num den k n : Z) (fuel : nat)
  : Z * Z :=
  let '(lo, r, d) := scaled num den (n - k) in
  let down := strip_zeros (max_digits t) lo (k - n) in
  let up := strip_zeros (S (max_digits t)) (lo + 1) (k - n) in
  match fuel with
  | O => if d <=? 2 * r then up else down
  | S f =>
    let down_ok := reads_back t v down in
    let up_ok := reads_back t v up in
    if andb up_ok (orb (negb down_ok) (d <=? 2 * r)) then up
    else if down_ok then down
    else shortest_from t v num den k (n + 1) f
  end.

(** The shortest digits of the positive float [m * 2^e] of [t]. *)
Definition shortest (t : float_ty) (m : positive) (e : Z) : Z * Z :=
  let '(num, den) := exact m e in
  shortest_from t (S754_finite false m e) num den (decimal_exponent num den) 1 (max_digits t).

Fixpoint zeros (n : nat) : string :=
  match n with
  | O => EmptyString
  | S n' => String "0" (zeros n')
  end.

(** [digits_to_dec_str] with no fractional minimum: the digits of [c]
    with the point placed for [c * 10^x], zeros filled in on either
    side. *)
Definition render_body (c x : Z) : string :=
  let ds := Str.show_nonneg c in
  let n := Z.of_nat (String.length ds) in
  let k := n + x in
  if k <=? 0 then "0." ++ zeros (Z.to_nat (- k)) ++ ds
  else if k <? n then substring 0 (Z.to_nat k) ds ++ "." ++ substring (Z.to_nat k) (Z.to_nat (n - k)) ds
  else ds ++ zeros (Z.to_nat (k - n)).

(** The sign [-] ([Sign::Minus]) before the digits of a negative value. *)
Definition render (neg : bool) (c x : Z) : string :=
  if neg then "-" ++ render_body c x else render_body c x.

(** [impl Display for f32] and [impl Display for f64] without a
    precision: [NaN], [inf] with its sign, [0] with its sign, and the
    shortest digits otherwise. *)
Definition display (t : float_ty) (x : spec_float) : string :=
  match x with
  | S754_nan => "NaN"
  | S754_infinity neg => if neg then "-inf" else "inf"
  | S754_zero neg => if neg then "-0" else "0"
  | S754_finite neg m e => let '(c, x) := shortest t m e in render neg c x
  end.

End Flt2Dec.

(** ** Checks of the model against known results *)
Module FloatFacts.
Import FloatTy Dec2Flt Flt2Dec.

(** The parser agrees with the kernel's own correctly rounded reading of
    float literals, on a spread of inputs: ordinary decimals, the least
    subnormal, the least normal, [f64::MAX], an integer past 2^53 that
    ties to even, halfway cases next to the least subnormal, and a
    decimal that overflows to infinity. *)
Lemma from_str_agrees_with_literals :
  Forall (fun '(s, x) => from_str F64 s = Ok (to_f64 x))
    [("0.1", 0.1); ("1.8", 1.8); ("5e-324", 5e-324);
     ("2.2250738585072014e-308", 2.2250738585072014e-308);
     ("1.7976931348623157e308", 1.7976931348623157e308);
     ("9007199254740993", 9007199254740993); ("123.456e-7", 123.456e-7);
     ("2.4703282292062327e-324", 2.4703282292062327e-324);
     ("2.4703282292062328e-324", 2.4703282292062328e-324);
     ("-32.5", -32.5); ("1e310", infinity)]%float.
Proof. repeat constructor; vm_compute; reflexivity. Qed.

(** [Display] gives the texts Rust prints for these [f64]s: the shortest
    digits that read back, positionally, with [-0], [inf] and [NaN]. *)
Lemma display_known_outputs :
  map (fun x => display F64 (to_f64 x))
    [0.1; 0.30000000000000004; 1e23; 212; -0; 1.5e-7; infinity; nan]%float =
  ["0.1"; "0.30000000000000004"; "100000000000000000000000"; "212"; "-0";
   "0.00000015"; "inf"; "NaN"].
Proof. vm_compute. reflexivity. Qed.

End FloatFacts.
