(* ===== verification/RustIO.v ===== *)
(** * Standard input and I/O errors: [io::stdin().read_line], [io::Error], [Result::expect]

    The console programs ([fibonacci.rs], [temperature-converter.rs])
    read their input with [io::stdin().read_line(&mut s).expect(..)] into
    a fresh [String].  Standard input is modelled as the bytes not read
    yet (a Stdlib [string]).  [read_line] takes the bytes up to and
    including the first newline (all of them at the end of the stream,
    none once it is exhausted); they are consumed whatever happens, and
    the call fails with [InvalidData] when they are not UTF-8, leaving the
    buffer empty ([append_to_string] truncates it back).  Failures of the
    operating system while reading are not modelled: the stream is the
    environment.  [io::Error] keeps the two representations the programs
    can meet, an OS error with its [errno] and a constant message, with
    their [Debug] texts, which is what [expect] and [{:?}] print. *)

From Stdlib Require Import ZArith List String Ascii Bool.
From S2P Require Import Prelude RustStr.
Import ListNotations.
Local Open Scope string_scope.

Module IO.
Import Str.

(** The [io::ErrorKind]s the programs can meet. *)
Inductive ErrorKind : Set := NotFound | PermissionDenied | InvalidData | IsADirectory | Other.

(** An [io::Error]: from the operating system ([errno], kind and the
    text of [strerror]), or a kind with a constant message. *)
Inductive io_error : Set :=
| Os (code : Z) (kind : ErrorKind) (message : string)
| SimpleMessage (kind : ErrorKind) (message : string).

Definition quote : ascii := ascii_of_nat 34.

(** [{:?}] of a string: between double quotes. *)
Definition debug_str (s : string) : string := String quote (s ++ String quote EmptyString).

Definition debug_kind (k : ErrorKind) : string :=
  match k with
  | NotFound => "NotFound"
  | PermissionDenied => "PermissionDenied"
  | InvalidData => "InvalidData"
  | IsADirectory => "IsADirectory"
  | Other => "Other"
  end.

(** [{:?}] of an [io::Error]. *)
Definition debug_error (e : io_error) : string :=
  match e with
  | Os code kind message =>
    "Os { code: " ++ show_Z code ++ ", kind: " ++ debug_kind kind ++
    ", message: " ++ debug_str message ++ " }"
  | SimpleMessage kind message =>
    "Error { kind: " ++ debug_kind kind ++ ", message: " ++ debug_str message ++ " }"
  end.

(** The error of [read_line] on bytes that are not UTF-8. *)
Definition invalid_utf8 : io_error :=
  SimpleMessage InvalidData "stream did not contain valid UTF-8".

Definition is_cont (v : Z) : bool := andb (128 <=? v)%Z (v <? 192)%Z.

(** [core::str::from_utf8]'s check: each character is one ASCII byte or
    a lead byte with the continuation bytes it announces, without
    overlong forms, surrogates, or code points past U+10FFFF. *)
Fixpoint valid_utf8 (s : string) : bool :=
  match s with
  | EmptyString => true
  | String b r =>
    let v := byte_val b in
    if (v <? 128)%Z then valid_utf8 r
    else
      match r with
      | EmptyString => false
      | String b1 r1 =>
        let v1 := byte_val b1 in
        if andb (194 <=? v)%Z (v <=? 223)%Z then andb (is_cont v1) (valid_utf8 r1)
        else
          match r1 with
          | EmptyString => false
          | String b2 r2 =>
            let v2 := byte_val b2 in
            if andb (224 <=? v)%Z (v <=? 239)%Z then
              andb (if (v =? 224)%Z then andb (160 <=? v1)%Z (v1 <=? 191)%Z
                    else if (v =? 237)%Z then andb (128 <=? v1)%Z (v1 <=? 159)%Z
                    else is_cont v1)
                   (andb (is_cont v2) (valid_utf8 r2))
            else
              match r2 with
              | EmptyString => false
              | String b3 r3 =>
                let v3 := byte_val b3 in
                if andb (240 <=? v)%Z (v <=? 244)%Z then
                  andb (if (v =? 240)%Z then andb (144 <=? v1)%Z (v1 <=? 191)%Z
                        else if (v =? 244)%Z then andb (128 <=? v1)%Z (v1 <=? 143)%Z
                        else is_cont v1)
                       (andb (is_cont v2) (andb (is_cont v3) (valid_utf8 r3)))
                else false
              end
          end
      end
  end.

Definition newline_byte : ascii := ascii_of_nat 10.

(** [read_until(b'\n')]: the bytes up to and including the first
    newline, and the rest of the stream. *)
Fixpoint split_line (s : string) : string * string :=
  match s with
  | EmptyString => (EmptyString, EmptyString)
  | String c r =>
    if Ascii.eqb c newline_byte then (String c EmptyString, r)
    else let (l, r') := split_line r in (String c l, r')
  end.

(** [io::stdin().read_line(&mut s)] on a fresh [s]: the line read (the
    newline included), or the error; and the stream left. *)
Definition read_line (stdin : string) : result string io_error * string :=
  let (line, rest) := split_line stdin in
  if valid_utf8 line then (Ok line, rest) else (Err invalid_utf8, rest).

(** [Result::expect(msg)]: the value, or a panic with [msg] and the
    error's [Debug] text. *)
Definition expect {A : Type} (r : result A io_error) (msg : string) : outcome A :=
  match r with
  | Ok a => Returns a
  | Err e => Panics (ExplicitPanic (msg ++ ": " ++ debug_error e))
  end.

End IO.

(** ** Theorems *)
Module IOFacts.
Import Str StrFacts IO.

(** The bytes of ASCII text are valid UTF-8. *)
Lemma ascii_valid_utf8 s : ascii_only s = true -> valid_utf8 s = true.
Proof.
  induction s as [|b s IH]; [reflexivity|]. cbn [ascii_only valid_utf8].
  intros H. apply andb_prop in H as [Hb Hs]. rewrite Hb. now apply IH.
Qed.

(** [read_line] consumes exactly the first line: what it read and what
    it left make up the stream. *)
Lemma split_line_app s : let (l, r) := split_line s in l ++ r = s.
Proof.
  induction s as [|c s IH]; [reflexivity|]. cbn [split_line].
  destruct (Ascii.eqb c newline_byte); [reflexivity|].
  destruct (split_line s) as [l r]. cbn. now rewrite IH.
Qed.

End IOFacts.
