(* ===== verification/Fibonacci.v ===== *)
(** * The Fibonacci exercise: [src/chapters/chapter-3/chapter-exercises/src/fibonacci.rs]

    [fibonacci] is the recursive function of lines 19-27 on [i32], with the
    debug build's overflow checks on [n-1], [n-2] and the addition; the
    recursion depth is bounded by [fuel] (the stack), and running out of it
    is [OutOfFuel].  [fib_spec] is the mathematical Fibonacci sequence it is
    compared with.  The theorems: [fibonacci] computes [fib_spec] for
    [0 <= n <= 46] once the stack holds [n] frames; it panics with an
    addition overflow for every [n >= 47]; for a negative [n] it never
    returns a value: the stack runs out, or, with a stack of more than
    [n + 2^31] frames, [n-1] overflows at [i32::MIN].  [main] reads its
    line from standard input ([RustIO]): input that is not UTF-8 makes
    [expect] panic, a line that is not an [i32] makes it panic with
    "Foo", and otherwise it prints the number. *)

From Stdlib Require Import ZArith List String Lia.
From S2P Require Import Prelude RustStr RustIO.
Import ListNotations.
Open Scope Z_scope.

Module Fib.

(** [fn fibonacci(n: i32) -> i32] (lines 19-27): the match arms in source
    order, then [fibonacci(n-1) + fibonacci(n-2)] evaluated left to right. *)
Fixpoint fibonacci (fuel : nat) (n : Z) : outcome Z :=
  match fuel with
  | O => OutOfFuel
  | S fuel' =>
    match n with
    | 0 => Returns 0
    | 1 => Returns 1
    | 2 => Returns 1
    | 3 => Returns 2
    | n =>
      (let? m1 := sub I32 n 1 in
       let? r1 := fibonacci fuel' m1 in
       let? m2 := sub I32 n 2 in
       let? r2 := fibonacci fuel' m2 in
       add I32 r1 r2)%rust
    end
  end.

(** The Fibonacci sequence, computed by iteration on pairs. *)
Fixpoint fib_pair (n : nat) : Z * Z :=
  match n with
  | O => (0, 1)
  | S n' => let (a, b) := fib_pair n' in (b, a + b)
  end.

Definition fib_spec (n : nat) : Z := fst (fib_pair n).

(** [fn main] (lines 3-17) on the bytes of standard input: the line
    [read_line] puts in the buffer (terminator included) or the panic of
    [expect]; then [n.trim().parse()] as an [i32], [fibonacci] on
    success, [panic!("Foo")] on a parse error, then the result line.  The
    printed lines are returned with the outcome. *)
Definition main (fuel : nat) (stdin : string) : list string * outcome unit :=
  let banner := ["Fibonacci nth number"%string] in
  match IO.expect (fst (IO.read_line stdin)) "Failed to read your input" with
  | Panics p => (banner, Panics p)
  | OutOfFuel => (banner, OutOfFuel)
  | Returns n =>
  match Str.from_str I32 (Str.trim n) with
  | Ok num =>
    match fibonacci fuel num with
    | Returns result =>
      (banner ++ ["The " ++ Str.trim n ++ "th fibonacci number is " ++ Str.show_Z result]%string,
       Returns tt)
    | Panics p => (banner, Panics p)
    | OutOfFuel => (banner, OutOfFuel)
    end
  | Err _ => (banner, Panics (ExplicitPanic "Foo"))
  end
  end.

End Fib.

(** ** Theorems *)
Module FibProofs.
Import Fib.

Lemma fib_pair_spec n : fib_pair n = (fib_spec n, fib_spec (S n)).
Proof.
  unfold fib_spec. induction n as [|n IH]; [reflexivity|].
  cbn [fib_pair]. rewrite IH. reflexivity.
Qed.

Lemma fib_spec_SS n : fib_spec (S (S n)) = fib_spec (S n) + fib_spec n.
Proof.
  unfold fib_spec at 1. cbn [fib_pair]. rewrite fib_pair_spec. cbn. lia.
Qed.

Lemma fib_spec_nonneg_mono n : 0 <= fib_spec n <= fib_spec (S n).
Proof.
  induction n as [|n IH]; [cbv; split; discriminate|].
  rewrite fib_spec_SS. lia.
Qed.

Lemma fib_spec_le k m : (k <= m)%nat -> fib_spec k <= fib_spec m.
Proof.
  induction 1 as [|m _ IH]; [lia|].
  pose proof (fib_spec_nonneg_mono m). lia.
Qed.

Lemma fib_spec_46 : fib_spec 46 = 1836311903.
Proof. vm_compute. reflexivity. Qed.

Lemma fib_spec_47 : fib_spec 47 = 2971215073.
Proof. vm_compute. reflexivity. Qed.

(** The recursive arm, for every [n] that is not one of the literals. *)
Lemma fibonacci_rec fuel n :
  n < 0 \/ 3 < n ->
  fibonacci (S fuel) n =
  (let? m1 := sub I32 n 1 in
   let? r1 := fibonacci fuel m1 in
   let? m2 := sub I32 n 2 in
   let? r2 := fibonacci fuel m2 in
   add I32 r1 r2)%rust.
Proof. intros H. destruct n as [|[[p|p|]|[p|p|]|]|p]; try lia; reflexivity. Qed.

Lemma fibonacci_value (fuel : nat) (n : Z) :
  0 <= n <= 46 -> (Z.to_nat n < fuel)%nat ->
  fibonacci fuel n = Returns (fib_spec (Z.to_nat n)).
Proof.
  remember (Z.to_nat n) as k eqn:Hk. revert fuel n Hk.
  induction k as [k IH] using lt_wf_ind; intros fuel n Hk Hn Hfuel.
  destruct fuel as [|fuel]; [lia|].
  assert (Hcase : n = 0 \/ n = 1 \/ n = 2 \/ n = 3 \/ 3 < n) by lia.
  destruct Hcase as [->|[->|[->|[->|Hbig]]]]; subst k; try reflexivity.
  rewrite fibonacci_rec by lia. int_arith.
  rewrite (IH (Z.to_nat (n - 1))) by lia. cbn [obind]. int_arith.
  rewrite (IH (Z.to_nat (n - 2))) by lia. cbn [obind].
  replace (Z.to_nat n) with (S (S (Z.to_nat (n - 2)))) by lia.
  replace (Z.to_nat (n - 1)) with (S (Z.to_nat (n - 2))) by lia.
  rewrite fib_spec_SS.
  pose proof (fib_spec_le (S (Z.to_nat (n - 2))) 45 ltac:(lia)).
  pose proof (fib_spec_le (Z.to_nat (n - 2)) 44 ltac:(lia)).
  pose proof (fib_spec_nonneg_mono (Z.to_nat (n - 2))).
  assert (fib_spec 45 + fib_spec 44 = fib_spec 46) by (rewrite <- fib_spec_SS; reflexivity).
  rewrite fib_spec_46 in *. int_arith. reflexivity.
Qed.

(** C5. For [0 <= n <= 46], once the stack holds more than [n] frames,
    [fibonacci(n)] returns the [n]-th Fibonacci number: no [i32] overflow
    occurs and the redundant arms [2 => 1] and [3 => 2] agree with the
    recursion. *)
Theorem fibonacci_correct (fuel : nat) (n : Z) :
  0 <= n <= 46 -> (Z.to_nat n < fuel)%nat ->
  fibonacci fuel n = Returns (fib_spec (Z.to_nat n)).
Proof. apply fibonacci_value. Qed.

Lemma fibonacci_correct_witness :
  fibonacci 11 10 = Returns 55.
Proof. exact (fibonacci_correct 11 10 ltac:(lia) ltac:(vm_compute; lia)). Defined.

(** C6. For every [n >= 47] (up to [i32::MAX]), once the stack holds more
    than [n] frames, [fibonacci(n)] panics with "attempt to add with
    overflow": [fib(47) = 2971215073] exceeds [i32::MAX], and every larger
    [n] reaches that addition first, through [fibonacci(n-1)]. *)
Theorem fibonacci_overflow (fuel : nat) (n : Z) :
  47 <= n <= max_of I32 -> (Z.to_nat n < fuel)%nat ->
  fibonacci fuel n = Panics (ArithOverflow OpAdd).
Proof.
  intros Hn. remember (Z.to_nat (n - 47)) as k eqn:Hk. revert fuel n Hk Hn.
  induction k as [|k IH]; intros fuel n Hk Hn Hfuel;
    (destruct fuel as [|fuel]; [lia|]);
    rewrite fibonacci_rec by lia; int_arith.
  - assert (n = 47) as -> by lia.
    rewrite (fibonacci_value fuel (47 - 1)), (fibonacci_value fuel (47 - 2)) by lia.
    vm_compute. reflexivity.
  - rewrite (IH fuel (n - 1)) by int_lia. reflexivity.
Qed.

Lemma fibonacci_overflow_witness : fibonacci 48 47 = Panics (ArithOverflow OpAdd).
Proof. exact (fibonacci_overflow 48 47 ltac:(int_lia) ltac:(vm_compute; lia)). Defined.

(** C7. For a negative [n], [fibonacci(n)] never returns a value.  The
    leftmost recursion [fibonacci(n-1)] descends towards [i32::MIN]: with a
    stack of at most [n - i32::MIN] frames it runs out of stack, and with a
    larger stack [n-1] overflows at [i32::MIN] and the call panics with
    "attempt to subtract with overflow". *)
Theorem fibonacci_negative (fuel : nat) (n : Z) :
  min_of I32 <= n < 0 ->
  fibonacci fuel n =
  if (Z.to_nat (n - min_of I32) <? fuel)%nat
  then Panics (ArithOverflow OpSub) else OutOfFuel.
Proof.
  revert n. induction fuel as [|fuel IH]; intros n Hn; [reflexivity|].
  rewrite fibonacci_rec by lia.
  destruct (Z.eq_dec n (min_of I32)) as [->|Hne].
  - unfold sub. rewrite checked_overflow by int_lia. reflexivity.
  - int_arith. rewrite (IH (n - 1)) by int_lia.
    replace (Z.to_nat (n - min_of I32)) with (S (Z.to_nat (n - 1 - min_of I32))) by int_lia.
    set (k := Z.to_nat (n - 1 - min_of I32)).
    change (S k <? S fuel)%nat with (k <? fuel)%nat.
    destruct (k <? fuel)%nat; reflexivity.
Qed.

Lemma fibonacci_negative_witness :
  fibonacci 100 (-1) = OutOfFuel /\ fibonacci 3 (-2147483647) = Panics (ArithOverflow OpSub).
Proof.
  split.
  - exact (fibonacci_negative 100 (-1) ltac:(int_lia)).
  - exact (fibonacci_negative 3 (-2147483647) ltac:(int_lia)).
Defined.

(** C8. When the line read from standard input parses, once trimmed,
    as an [i32] [n] with [0 <= n <= 46], [main] prints the banner and
    "The [n]th fibonacci number is [fib n]" and exits normally; the number
    is printed as the user typed it (the trimmed line). *)
Theorem main_prints_fib (fuel : nat) (stdin line : string) (n : Z) :
  fst (IO.read_line stdin) = Ok line ->
  Str.from_str I32 (Str.trim line) = Ok n -> 0 <= n <= 46 -> (Z.to_nat n < fuel)%nat ->
  main fuel stdin =
  (["Fibonacci nth number"; "The " ++ Str.trim line ++ "th fibonacci number is " ++
     Str.show_Z (fib_spec (Z.to_nat n))]%string, Returns tt).
Proof.
  intros Hr Hp Hn Hf. unfold main. rewrite Hr. cbn [IO.expect].
  rewrite Hp, fibonacci_value by assumption. reflexivity.
Qed.

Lemma main_prints_fib_witness :
  main 20 ("10" ++ Str.newline)%string =
  (["Fibonacci nth number"; "The 10th fibonacci number is 55"]%string, Returns tt).
Proof.
  exact (main_prints_fib 20 ("10" ++ Str.newline) ("10" ++ Str.newline) 10
           eq_refl eq_refl ltac:(lia) ltac:(vm_compute; lia)).
Defined.

(** C9. [main]'s two error paths: input that is not UTF-8 makes
    [read_line] fail and [expect] panic with "Failed to read your input:"
    and the error; a line that is not an [i32] once trimmed (empty, a
    non-digit, or out of range) makes it panic with "Foo".  Both after
    the banner. *)
Theorem main_parse_error (fuel : nat) (stdin line : string) (e : Str.IntErrorKind) :
  (fst (IO.read_line stdin) = Err IO.invalid_utf8 ->
   main fuel stdin = (["Fibonacci nth number"%string],
     Panics (ExplicitPanic ("Failed to read your input: Error { kind: InvalidData, message: " ++
       IO.debug_str "stream did not contain valid UTF-8" ++ " }")))) /\
  (fst (IO.read_line stdin) = Ok line -> Str.from_str I32 (Str.trim line) = Err e ->
   main fuel stdin = (["Fibonacci nth number"%string], Panics (ExplicitPanic "Foo"))).
Proof.
  split.
  - intros Hr. unfold main. now rewrite Hr.
  - intros Hr Hp. unfold main. rewrite Hr. cbn [IO.expect]. now rewrite Hp.
Qed.

Lemma main_parse_error_witness :
  main 20 (String (Ascii.ascii_of_nat 255) Str.newline) =
    (["Fibonacci nth number"%string],
     Panics (ExplicitPanic ("Failed to read your input: Error { kind: InvalidData, message: " ++
       IO.debug_str "stream did not contain valid UTF-8" ++ " }"))) /\
  main 20 ("2147483648" ++ Str.newline)%string =
    (["Fibonacci nth number"%string], Panics (ExplicitPanic "Foo")).
Proof.
  split.
  - exact (proj1 (main_parse_error 20 (String (Ascii.ascii_of_nat 255) Str.newline) "" Str.Empty)
             eq_refl).
  - exact (proj2 (main_parse_error 20 ("2147483648" ++ Str.newline) ("2147483648" ++ Str.newline)
             Str.PosOverflow) eq_refl eq_refl).
Defined.

End FibProofs.
