(* ===== verification/FirstWord.v ===== *)
(** * [first_word]: [src/chapters/chapter-4/exercise1-r.rs]

    [first_word] (lines 17-25) walks [s.chars().enumerate()] and, at the
    first [' '], returns [&s[..i]] where [i] counts characters while the
    slice takes a byte offset.  The model keeps both: [chars] decodes the
    UTF-8 bytes and [slice_to] checks the byte offset ([Str] in [RustStr]).
    The theorems: on any string the code slices at the number of
    characters before the first space; for an ASCII word that is the word
    itself, and only for an ASCII word: a multi-byte character before
    the space makes it panic or return a strict prefix of the word; a
    string without a space is returned whole. *)

From Stdlib Require Import ZArith List String Ascii Lia.
From S2P Require Import Prelude RustStr.
Import ListNotations.
Open Scope string_scope.

Module FirstWord.
Import Str.

(** [Iterator::enumerate]: each item with its position. *)
Definition enumerate {A : Type} (l : list A) : list (nat * A) :=
  combine (seq 0 (List.length l)) l.

(** The loop [for (i, c) in ... { if c == ' ' { return &s[..i] } }]:
    [Some] is the early return. *)
Fixpoint first_word_loop (s : string) (it : list (nat * Z)) : option (outcome string) :=
  match it with
  | [] => None
  | (i, c) :: it' => if (c =? 32)%Z then Some (slice_to s i) else first_word_loop s it'
  end.

(** [fn first_word(s: &String) -> &str] (lines 17-25); [&s[..]] is the
    whole string. *)
Definition first_word (s : string) : outcome string :=
  match first_word_loop s (enumerate (chars s)) with
  | Some r => r
  | None => Returns s
  end.

(** [fn main] (lines 3-15): the three words it prints. *)
Definition main : outcome (list string) :=
  let m1 := "marceloboeira" in
  let m2 := "marcelo boeira" in
  let m3 := " boeira" in
  (let? w1 := first_word m1 in
   let? w2 := first_word m2 in
   let? w3 := first_word m3 in
   Returns [w1; w2; w3])%rust.

End FirstWord.

(** ** Theorems *)
Module FirstWordProofs.
Import Str StrFacts FirstWord.

Lemma loop_finds_space s k l1 l2 :
  ~ In 32%Z l1 ->
  first_word_loop s (combine (seq k (List.length l1 + S (List.length l2))) (l1 ++ 32%Z :: l2)) =
  Some (slice_to s (k + List.length l1)).
Proof.
  revert k. induction l1 as [|c l1 IH]; intros k Hn.
  - cbn. now rewrite Nat.add_0_r.
  - cbn. destruct (Z.eqb_spec c 32) as [->|Hc]; [exfalso; apply Hn; now left|].
    rewrite IH by (intros H; apply Hn; now right). f_equal. f_equal. lia.
Qed.

Lemma loop_no_space s k l :
  ~ In 32%Z l -> first_word_loop s (combine (seq k (List.length l)) l) = None.
Proof.
  revert k. induction l as [|c l IH]; intros k Hn; [reflexivity|].
  cbn. destruct (Z.eqb_spec c 32) as [->|Hc]; [exfalso; apply Hn; now left|].
  apply IH. intros H; apply Hn; now right.
Qed.

Lemma substring_app_l (w t : string) : substring 0 (String.length w) (w ++ t) = w.
Proof. induction w as [|c w IH]; cbn; [now destruct t | now rewrite IH]. Qed.

Lemma get_app_length (w t : string) : get (String.length w) (w ++ t) = get 0 t.
Proof. induction w as [|c w IH]; cbn; auto. Qed.

Lemma boundary_before_space (w rest : string) :
  is_char_boundary (w ++ " " ++ rest) (String.length w) = true.
Proof.
  unfold is_char_boundary. rewrite get_app_length.
  destruct (String.length w); reflexivity.
Qed.

Lemma first_word_split (w rest : string) :
  complete w = true -> ~ In 32%Z (chars w) ->
  first_word (w ++ " " ++ rest) = slice_to (w ++ " " ++ rest) (List.length (chars w)).
Proof.
  intros Hc Hn. unfold first_word, enumerate.
  rewrite chars_app by exact Hc.
  rewrite (chars_app " " rest) by reflexivity.
  change (chars " ") with [32%Z]. cbn [app].
  rewrite length_app. cbn [List.length].
  now rewrite loop_finds_space.
Qed.

(** C10. On every string [w ++ " " ++ rest] where [w] is whole UTF-8
    characters without a space, [first_word] slices at the number of
    characters of [w], not at its length in bytes. *)
Theorem first_word_slices_at_char_count (w rest : string) :
  complete w = true -> ~ In 32%Z (chars w) ->
  first_word (w ++ " " ++ rest) = slice_to (w ++ " " ++ rest) (List.length (chars w)).
Proof. apply first_word_split. Qed.

Lemma first_word_slices_at_char_count_witness :
  first_word ("abc" ++ " " ++ "def") = slice_to ("abc" ++ " " ++ "def") 3.
Proof. exact (first_word_slices_at_char_count "abc" "def" eq_refl ltac:(cbv; intuition discriminate)). Defined.

(** For an ASCII word [w] without a space, [first_word] returns [w]
    on [w ++ " " ++ rest], whatever [rest] holds. *)
Theorem first_word_ascii (w rest : string) :
  ascii_only w = true -> ~ In 32%Z (chars w) ->
  first_word (w ++ " " ++ rest) = Returns w.
Proof.
  intros Ha Hn. rewrite first_word_split by auto using ascii_complete.
  rewrite chars_ascii by exact Ha. rewrite length_map.
  replace (List.length (list_ascii_of_string w)) with (String.length w)
    by (clear; induction w; cbn; congruence).
  unfold slice_to. rewrite boundary_before_space. now rewrite substring_app_l.
Qed.

Lemma first_word_ascii_witness : first_word ("marcelo" ++ " " ++ "boeira") = Returns "marcelo".
Proof. exact (first_word_ascii "marcelo" "boeira" eq_refl ltac:(cbv; intuition discriminate)). Defined.

(** A string whose characters include no space is returned whole. *)
Theorem first_word_no_space (s : string) :
  ~ In 32%Z (chars s) -> first_word s = Returns s.
Proof. intros Hn. unfold first_word, enumerate. now rewrite loop_no_space. Qed.

Lemma first_word_no_space_witness : first_word "marceloboeira" = Returns "marceloboeira".
Proof. exact (first_word_no_space "marceloboeira" ltac:(cbv; intuition discriminate)). Defined.

(** C11. For a word [w] of whole UTF-8 characters without a space,
    [first_word] returns [w] on [w ++ " " ++ rest] exactly when [w] is
    ASCII: any multi-byte character makes the character count smaller
    than the byte length, and [&s[..i]] then panics or returns a strict
    prefix of [w]. *)
Theorem first_word_returns_word_iff_ascii (w rest : string) :
  complete w = true -> ~ In 32%Z (chars w) ->
  first_word (w ++ " " ++ rest) = Returns w <-> ascii_only w = true.
Proof.
  intros Hc Hn. split; [|intros Ha; now apply first_word_ascii].
  destruct (ascii_only w) eqn:Ha; [reflexivity|]. intros H. exfalso.
  rewrite first_word_split in H by assumption. unfold slice_to in H.
  pose proof (chars_length_non_ascii w Ha) as Hlt.
  destruct is_char_boundary; [|destruct Nat.ltb; discriminate].
  injection H as H.
  match type of H with substring 0 ?n ?s = _ =>
    pose proof (substring_length_le n s) as Hle end.
  rewrite H in Hle. lia.
Qed.

Lemma first_word_returns_word_iff_ascii_witness :
  first_word ("é" ++ " " ++ "b") = Returns "é" <-> ascii_only "é" = true.
Proof.
  exact (first_word_returns_word_iff_ascii "é" "b" eq_refl
           ltac:(cbv; intuition discriminate)).
Defined.

(** [main] computes the words "marceloboeira", "marcelo" and "". *)
Theorem main_words : main = Returns ["marceloboeira"; "marcelo"; ""].
Proof. vm_compute. reflexivity. Qed.

End FirstWordProofs.
