(* ===== verification/Adder.v ===== *)
(** * The [adder] library and its tests: [src/chapters/chapter-11/adder/src/lib.rs]

    [Module Adder] translates the library items ([Rectangle::can_hold],
    [add_two], [greeting], [Guess::new]); [Module AdderTests] the ten test
    functions of [mod tests] with their attributes, and [run_test] the rule
    by which the test harness decides each result ([#[ignore]],
    [#[should_panic(expected = ...)]], a returned [Err]).  The tests run in
    the debug build, so [add_two] is checked [i32] addition.  The theorems:
    [Guess::new] accepts exactly [1..=100] and reports the value otherwise;
    [greeting] contains the name for every name; [add_two] overflows
    exactly above [i32::MAX - 2]. *)

From Stdlib Require Import ZArith List String Bool Lia.
From S2P Require Import Prelude RustStr.
Import ListNotations.
Open Scope string_scope.

Module Adder.
Import Str.

(** [pub struct Rectangle { length: u32, width: u32 }] (lines 1-5). *)
Record Rectangle : Set := mkRectangle { length : Z; width : Z }.

(** [Rectangle::can_hold] (lines 8-11). *)
Definition can_hold (self other : Rectangle) : bool :=
  (other.(length) <? self.(length))%Z && (other.(width) <? self.(width))%Z.

(** [add_two] (lines 14-16): [a + 2] on [i32]. *)
Definition add_two (a : Z) : outcome Z := add I32 a 2.

(** [greeting] (lines 18-20): [format!("Hello {}!", name)]. *)
Definition greeting (name : string) : string := "Hello " ++ name ++ "!".

(** [pub struct Guess { value: i32 }] (lines 22-24). *)
Record Guess : Set := mkGuess { value : Z }.

(** The message of the panic in [Guess::new] (line 29). *)
Definition guess_panic_message (value : Z) : string :=
  "Guess value must be between 1 and 100, got " ++ show_Z value ++ ".".

(** [Guess::new] (lines 27-35). *)
Definition guess_new (value : Z) : outcome Guess :=
  if (value <? 1)%Z || (value >? 100)%Z
  then Panics (ExplicitPanic (guess_panic_message value))
  else Returns {| value := value |}.

End Adder.

Module AdderTests.
Import Str Adder.

(** The attributes the harness reads. *)
Inductive test_attr : Set :=
| Plain
| ShouldPanic (expected : option string)
| Ignore.

(** A test function: its attributes and what its body does; a body that
    returns [Result<(), String>] gives [Ok]/[Err], the others [Ok tt]. *)
Record test : Set := mkTest {
  test_name : string;
  attr : test_attr;
  body : outcome (result unit string)
}.

Inductive test_result : Set := Passed | Failed | Ignored.

(** The text of a panic, as [should_panic(expected = ...)] matches it. *)
Definition panic_message (p : panic) : string :=
  match p with
  | ArithOverflow OpAdd => "attempt to add with overflow"
  | ArithOverflow OpSub => "attempt to subtract with overflow"
  | ArithOverflow OpMul => "attempt to multiply with overflow"
  | IndexOutOfBounds _ _ => "index out of bounds"
  | SliceNotCharBoundary _ => "byte index is not a char boundary"
  | ExplicitPanic msg => msg
  | AssertionFailed l r => "assertion failed: left == right"
  end.

(** How the harness decides a test's result. *)
Definition run_test (t : test) : test_result :=
  match t.(attr), t.(body) with
  | Ignore, _ => Ignored
  | Plain, Returns (Ok _) => Passed
  | Plain, _ => Failed
  | ShouldPanic None, Panics _ => Passed
  | ShouldPanic (Some e), Panics p => if contains (panic_message p) e then Passed else Failed
  | ShouldPanic _, _ => Failed
  end.

(** [assert!(cond)] and [assert_eq!(left, right)] on [i32]. *)
Definition assert (cond : bool) (msg : string) : outcome (result unit string) :=
  if cond then Returns (Ok tt) else Panics (ExplicitPanic msg).

Definition assert_eq_i32 (left right : Z) : outcome (result unit string) :=
  if (left =? right)%Z then Returns (Ok tt)
  else Panics (AssertionFailed (show_Z left) (show_Z right)).

Definition larger : Rectangle := {| length := 8; width := 7 |}.
Definition smaller : Rectangle := {| length := 5; width := 1 |}.

(** [mod tests] (lines 38-111), in source order. *)
Definition tests : list test := [
  mkTest "it_works" Plain (let? s := add I32 2 2 in assert_eq_i32 s 4)%rust;
  mkTest "another" Plain (Panics (ExplicitPanic "Make this test fail"));
  mkTest "larger_can_hold_smaller" Plain
    (assert (can_hold larger smaller) "assertion failed: larger.can_hold(&smaller)");
  mkTest "smaller_cannot_hold_larger" Plain
    (assert (negb (can_hold smaller larger)) "assertion failed: !smaller.can_hold(&larger)");
  mkTest "it_adds_two" Plain (let? r := add_two 2 in assert_eq_i32 4 r)%rust;
  mkTest "result_not_equal" Plain (Returns (Ok tt));
  mkTest "greeting_contains_name" Plain
    (let result := greeting "Carol" in
     assert (contains result "Carol")
       ("Greeting did not contain name, value was `" ++ result ++ "`"));
  mkTest "greater_than_100" (ShouldPanic (Some "foo"))
    (let? _ := guess_new 200 in Returns (Ok tt))%rust;
  mkTest "it_works_result_error" Plain
    (let? s := add I32 2 2 in
     if (s =? 4)%Z then Returns (Ok tt) else Returns (Err "two plus two does not equal four"))%rust;
  mkTest "it_is_ignored" Ignore (Panics (ExplicitPanic "Should not run"))
].

End AdderTests.

(** ** Theorems *)
Module AdderProofs.
Import Str StrFacts Adder AdderTests.

(** C16. [Guess::new] returns a guess holding [value] exactly when
    [1 <= value <= 100]; otherwise it panics with a message that shows the
    value. *)
Theorem guess_new_spec (v : Z) :
  ((1 <= v <= 100)%Z -> guess_new v = Returns (mkGuess v)) /\
  (~ (1 <= v <= 100)%Z ->
   exists msg, guess_new v = Panics (ExplicitPanic msg) /\ contains msg (show_Z v) = true).
Proof.
  unfold guess_new. split; intros H.
  - destruct (Z.ltb_spec v 1), (Z.gtb_spec v 100); cbn; [lia..|reflexivity].
  - exists (guess_panic_message v). split.
    + destruct (Z.ltb_spec v 1), (Z.gtb_spec v 100); cbn; [reflexivity..|lia].
    + apply contains_middle.
Qed.


(** [greeting(name)] contains [name] for every name. *)
Theorem greeting_contains (name : string) : contains (greeting name) name = true.
Proof. apply contains_middle. Qed.



(** C17. On every [i32] [a], [add_two(a)] is [a + 2] when
    [a <= i32::MAX - 2] and panics with an addition overflow otherwise. *)
Theorem add_two_bounds (a : Z) :
  in_range I32 a = true ->
  add_two a = if (a <=? 2147483645)%Z then Returns (a + 2)%Z else Panics (ArithOverflow OpAdd).
Proof.
  intros Ha. apply in_range_spec in Ha. unfold add_two.
  destruct (Z.leb_spec a 2147483645); int_arith; reflexivity.
Qed.

Lemma add_two_bounds_witness :
  add_two 2147483646 = Panics (ArithOverflow OpAdd).
Proof. exact (add_two_bounds 2147483646 eq_refl). Defined.

End AdderProofs.
