(* ===== verification/Structs.v ===== *)
(** * Struct, generic and iterator exercises

    One Module per source file:
    - [Rect6]: [chapter-5/chapter-exercises/src/main6.rs] ([can_hold] on
      [width]/[height] and the five printed lines);
    - [Rect7]: [chapter-5/chapter-exercises/src/main7.rs] ([square]);
    - [Users]: [chapter-5/example3.rs] ([build_user] and the field updates);
    - [Largest]: [chapter-10/generics2.rs] ([largest] over any ordered
      element type, as a Section over the comparison [>]);
    - [Points]: [chapter-10/generics6.rs] ([Point<T>], its [impl]s for
      every [T], for [i32] and for [f32], the last with [f32] arithmetic);
    - [IterDemo]: [chapter-13/example05.rs] (the slice iterator's [next]);
    - [Destructure]: [chapter-18/example17.rs].
    Printing is modelled as the list of lines [main] writes. *)

From Corelib Require Import SpecFloat.
From Stdlib Require Import ZArith List String Bool Lia.
From S2P Require Import Prelude RustStr RustFloat.
Import ListNotations.
Open Scope string_scope.

Module Rect6.
Import Str.

(** [struct Rectangle { width: u32, height: u32 }] (lines 1-4). *)
Record Rectangle : Set := mkRectangle { width : Z; height : Z }.

(** [can_hold] (lines 7-9). *)
Definition can_hold (self other : Rectangle) : bool :=
  (other.(width) <? self.(width))%Z && (other.(height) <? self.(height))%Z.

(** [main] (lines 12-22): the lines it prints. *)
Definition main : list string :=
  let rect1 := {| width := 30; height := 50 |} in
  let rect2 := {| width := 10; height := 40 |} in
  let rect3 := {| width := 60; height := 45 |} in
  let dims n r := "Rect " ++ n ++ " w: " ++ show_Z r.(width) ++ ", h: " ++ show_Z r.(height) in
  [ "Can rect1 hold rect2? " ++ show_bool (can_hold rect1 rect2);
    "Can rect1 hold rect3? " ++ show_bool (can_hold rect1 rect3);
    dims "1" rect1; dims "2" rect2; dims "3" rect3 ].

End Rect6.

Module Rect7.
Import Str.

(** [struct Rectangle { width: u32, height: u32 }] (lines 1-4). *)
Record Rectangle : Set := mkRectangle { width : Z; height : Z }.

(** [Rectangle::square] (lines 7-9). *)
Definition square (size : Z) : Rectangle := {| width := size; height := size |}.

(** [main] (lines 12-16). *)
Definition main : list string :=
  let rect1 := square 2 in
  ["Rect 1 w: " ++ show_Z rect1.(width) ++ ", h: " ++ show_Z rect1.(height)].

End Rect7.

Module Users.

(** [struct User] (lines 1-6); [sign_in_count] is a [u64]. *)
Record User : Set := mkUser {
  username : string;
  email : string;
  sign_in_count : Z;
  active : bool
}.

(** [build_user] (lines 8-15), with the field init shorthand. *)
Definition build_user (email username : string) : User :=
  {| email := email; username := username; active := true; sign_in_count := 1 |}.

(** [main] (lines 17-24): two field assignments on the mutable binding,
    then one printed line. *)
Definition main : list string :=
  let user1 := build_user "foo@bar.com" "foobar" in
  let user1 := {| username := user1.(username); email := "anotheremail@example.com";
                  sign_in_count := user1.(sign_in_count); active := user1.(active) |} in
  let user1 := {| username := "notthesameasbefore"; email := user1.(email);
                  sign_in_count := user1.(sign_in_count); active := user1.(active) |} in
  ["User " ++ user1.(username) ++ " logged in with " ++ user1.(email) ++ " email address"].

End Users.

Module Largest.

Section WithOrder.
Context {T : Type}.
(** The comparison [item > l] of the element type. *)
Variable gt : T -> T -> bool.

(** [fn largest<T>(list: &[T]) -> T] (lines 1-11): [list[0]] panics on an
    empty slice; the loop visits every item, the first one included. *)
Definition largest (list : list T) : outcome T :=
  match nth_error list 0 with
  | None => Panics (IndexOutOfBounds 0 (List.length list))
  | Some first =>
    Returns (fold_left (fun l item => if gt item l then item else l) list first)
  end.
End WithOrder.

(** [main] (lines 13-23), on [i32] and on [char] (code points). *)
Definition main : outcome (list string) :=
  (let? n := largest Z.gtb [34; 50; 25; 100; 65]%Z in
   let? c := largest Z.gtb [121; 109; 97; 113]%Z in
   Returns ["The largest number is " ++ Str.show_Z n;
            "The largest char is " ++ String (Ascii.ascii_of_nat (Z.to_nat c)) EmptyString])%rust.

End Largest.

Module Points.

(** [struct Point<T> { x: T, y: T }] (lines 1-4). *)
Record Point (T : Type) : Type := mkPoint { x : T; y : T }.
Arguments mkPoint {T} x y.
Arguments x {T} p.
Arguments y {T} p.

(** The methods, in a module of their own since they share the fields'
    names. *)
Module Impl.
(** [impl<T> Point<T> { fn x(&self) -> &T }] (lines 6-10). *)
Definition x {T : Type} (self : Point T) : T := self.(Points.x).

(** [impl Point<i32> { fn y(&self) -> i32 }] (lines 12-16). *)
Definition y (self : Point Z) : Z := self.(Points.y).

(** [impl Point<f32> { fn distance_from_origin }] (lines 18-22). *)
Definition distance_from_origin (self : Point spec_float) : spec_float :=
  F32.sqrt (F32.add (F32.powi self.(Points.x) 2) (F32.powi self.(Points.y) 2)).
End Impl.

(** An [f32] literal of the source, rounded to the nearest [f32]. *)
Definition f32_lit (s : string) : spec_float :=
  match Dec2Flt.from_str FloatTy.F32 s with
  | Ok v => v
  | Err _ => S754_nan
  end.

(** [main] (lines 24-30): the two lines it prints. *)
Definition main : list string :=
  let p : Point Z := mkPoint 5%Z 10%Z in
  let f : Point spec_float := mkPoint (f32_lit "5.0") (f32_lit "10.0") in
  ["p.y = " ++ Str.show_Z (Impl.y p);
   "f.distance = " ++ Flt2Dec.display FloatTy.F32 (Impl.distance_from_origin f)].

End Points.

Module IterDemo.

(** [std::slice::Iter]: the items not yet returned. *)
Record Iter : Set := mkIter { remaining : list Z }.

(** [v.iter()] *)
Definition iter (v : list Z) : Iter := {| remaining := v |}.

(** [Iterator::next] *)
Definition next (it : Iter) : option Z * Iter :=
  match it.(remaining) with
  | [] => (None, it)
  | x :: rest => (Some x, {| remaining := rest |})
  end.

(** [n] calls of [next], with what each returned. *)
Fixpoint drain (n : nat) (it : Iter) : list (option Z) :=
  match n with
  | O => []
  | S n' => let (r, it') := next it in r :: drain n' it'
  end.

(** [main] (lines 1-16): the [for] loop prints each item, then four
    [next] calls are checked by [assert_eq!]. *)
Definition main : outcome (list string) :=
  let v1 := [1; 2; 3]%Z in
  let printed := map (fun v => "Got: " ++ Str.show_Z v) v1 in
  let checks := drain 4 (iter v1) in
  match checks with
  | [Some 1; Some 2; Some 3; None]%Z => Returns printed
  | _ => Panics (AssertionFailed "" "")
  end.

End IterDemo.

Module Destructure.

(** [struct Point { x: i32, y: i32 }] (lines 1-4). *)
Record Point : Set := mkPoint { x : Z; y : Z }.

(** [main] (lines 6-10): the nested pattern binds four variables. *)
Definition main : list string :=
  match ((3, 10), {| x := 3; y := -10 |})%Z with
  | ((feet, inches), {| x := x; y := y |}) =>
    [Str.show_Z feet ++ " " ++ Str.show_Z inches ++ " " ++ Str.show_Z x ++ " " ++ Str.show_Z y]
  end.

End Destructure.

(** ** Theorems *)
Module StructsProofs.
Import Largest IterDemo.

Section LargestSpec.
Context {T : Type} (gt : T -> T -> bool).
Hypothesis gt_irrefl : forall a, gt a a = false.
Hypothesis gt_trans : forall a b c, gt a b = true -> gt b c = true -> gt a c = true.

Let step (l item : T) : T := if gt item l then item else l.

Lemma largest_fold items acc seen :
  (forall y, In y seen -> gt y acc = false) ->
  (forall y, In y seen \/ In y items -> gt y (fold_left step items acc) = false) /\
  (fold_left step items acc = acc \/ In (fold_left step items acc) items).
Proof.
  revert acc seen. induction items as [|x items IH]; intros acc seen Hseen; cbn.
  - split; [intros y [Hy|[]]; auto | now left].
  - assert (Hnext : forall y, In y (x :: seen) -> gt y (step acc x) = false).
    { intros y [<-|Hy]; unfold step; destruct (gt x acc) eqn:Ex; auto.
      destruct (gt y x) eqn:Ey; [|reflexivity].
      pose proof (Hseen y Hy) as Hy'. now rewrite (gt_trans _ _ _ Ey Ex) in Hy'. }
    destruct (IH (step acc x) (x :: seen) Hnext) as [H1 H2]. split.
    + intros y Hy. apply H1. cbn. tauto.
    + destruct H2 as [->|H2]; [|now right; right].
      unfold step. destruct (gt x acc); [now right; left | now left].
Qed.

(** C18. [largest] panics on an empty slice ([list[0]] is out of bounds)
    and on every non-empty slice returns an element of the slice that no
    element is greater than, for any irreflexive and transitive [>]. *)
Theorem largest_spec (l : list T) :
  (l = [] -> largest gt l = Panics (IndexOutOfBounds 0 0)) /\
  (l <> [] -> exists m, largest gt l = Returns m /\ In m l /\ forall y, In y l -> gt y m = false).
Proof.
  split; [intros ->; reflexivity|].
  intros Hne. destruct l as [|first rest]; [contradiction|].
  exists (fold_left step (first :: rest) first). split; [reflexivity|].
  destruct (largest_fold (first :: rest) first [first]) as [H1 H2].
  - intros y [<-|[]]. apply gt_irrefl.
  - split.
    + destruct H2 as [E|H2]; [rewrite E; now left | exact H2].
    + intros y Hy. apply H1. now right.
Qed.

End LargestSpec.

Lemma largest_spec_witness :
  [34; 50; 25; 100; 65]%Z <> [] /\
  exists m, largest Z.gtb [34; 50; 25; 100; 65]%Z = Returns m /\
    In m [34; 50; 25; 100; 65]%Z /\ forall y, In y [34; 50; 25; 100; 65]%Z -> Z.gtb y m = false.
Proof.
  assert (Hirr : forall a, Z.gtb a a = false)
    by (intros a; rewrite Z.gtb_ltb; apply Z.ltb_irrefl).
  assert (Htr : forall a b c, Z.gtb a b = true -> Z.gtb b c = true -> Z.gtb a c = true)
    by (intros a b c; rewrite !Z.gtb_ltb, !Z.ltb_lt; lia).
  assert (Hne : [34; 50; 25; 100; 65]%Z <> []) by discriminate.
  split; [exact Hne|].
  apply (largest_spec Z.gtb Hirr Htr). exact Hne.
Defined.



End StructsProofs.
