(* ===== verification/Enums.v ===== *)
(** * Enum and pattern-matching exercises

    One Module per source file, each enum with the source's constructors
    and each [match] function with its arms; what a function prints is
    returned as text:
    - [IpKind]: [chapter-6/example1.rs];  [IpStruct]: [chapter-6/example2.rs];
    - [IpString]: [chapter-6/example3.rs];  [IpOctets]: [chapter-6/example4.rs];
    - [Messages]: [chapter-6/example5.rs] ([Message::call]);
    - [Optionals]: [chapter-6/example6.rs] ([sum_optionals] on [i8], with
      the debug build's overflow check on [x + y]);
    - [Coins]: [chapter-6/example7.rs];  [StateCoins]: [chapter-6/example8.rs];
    - [Spreadsheet]: [chapter-8/example3.rs] (a vector of an enum whose
      variants hold an [i32], an [f64] or a [String], printed with [{}]);
    - [Concat]: [chapter-8/example6.rs] ([String + &str]);
    - [Statuses]: [chapter-19/example16.rs] (an enum constructor used as a
      function in [map]). *)

From Corelib Require Import PrimFloat.
From Stdlib Require Import ZArith List String Bool Lia.
From S2P Require Import Prelude RustStr RustFloat.
Import ListNotations.
Open Scope string_scope.

Module IpKind.

(** [enum IpAddrKind] (lines 1-4). *)
Inductive IpAddrKind : Set := V4 | V6.

(** [print_iptype] (lines 6-11). *)
Definition print_iptype (ip : IpAddrKind) : string :=
  match ip with
  | V4 => "This is version is 4"
  | V6 => "This is version is 6"
  end.

(** [main] (lines 13-19). *)
Definition main : list string := [print_iptype V4; print_iptype V6].

End IpKind.

Module IpStruct.

(** [enum IpAddrKind] (lines 1-4) and [struct IpAddr] (lines 6-9). *)
Inductive IpAddrKind : Set := V4 | V6.
Record IpAddr : Set := mkIpAddr { kind : IpAddrKind; address : string }.

(** [print_ip] (lines 11-16). *)
Definition print_ip (ip : IpAddr) : string :=
  match ip.(kind) with
  | V4 => "IPV4: " ++ ip.(address)
  | V6 => "IPV6: " ++ ip.(address)
  end.

(** [main] (lines 18-31). *)
Definition main : list string :=
  [print_ip {| kind := V4; address := "127.0.0.1" |};
   print_ip {| kind := V6; address := "::1" |}].

End IpStruct.

Module IpString.

(** [enum IpAddr { V4(String), V6(String) }] (lines 1-4). *)
Inductive IpAddr : Set := V4 (addr : string) | V6 (addr : string).

(** [print_ip] (lines 6-11). *)
Definition print_ip (ip : IpAddr) : string :=
  match ip with
  | V4 addr => "IPV4: " ++ addr
  | V6 addr => "IPV6: " ++ addr
  end.

(** [main] (lines 13-19). *)
Definition main : list string := [print_ip (V4 "127.0.0.1"); print_ip (V6 "::1")].

End IpString.

Module IpOctets.
Import Str.

(** [enum IpAddr { V4(u8, u8, u8, u8), V6(String) }] (lines 1-4). *)
Inductive IpAddr : Set := V4 (a b c d : Z) | V6 (addr : string).

(** [print_ip] (lines 6-11): the octets are joined with [':']. *)
Definition print_ip (ip : IpAddr) : string :=
  match ip with
  | V4 a b c d => "IPV4: " ++ show_Z a ++ ":" ++ show_Z b ++ ":" ++ show_Z c ++ ":" ++ show_Z d
  | V6 addr => "IPV6: " ++ addr
  end.

(** [main] (lines 13-19). *)
Definition main : list string := [print_ip (V4 127 0 0 1); print_ip (V6 "::1")].

End IpOctets.

Module Messages.
Import Str.

(** The structs of lines 1-7, one per variant below: a unit struct,
    a struct with named fields and two tuple structs. *)
Record QuitMessage : Set := mkQuitMessage {}.
Record MoveMessage : Set := mkMoveMessage { x : Z; y : Z }.
Record WriteMessage : Set := mkWriteMessage { write_0 : string }.
Record ChangeColorMessage : Set := mkChangeColorMessage { color_0 : Z; color_1 : Z; color_2 : Z }.

(** [enum Message] (lines 9-14). *)
Inductive Message : Set :=
| Quit
| Move (x y : Z)
| Write (m : string)
| ChangeColor (a b c : Z).

(** [Message::call] (lines 16-25). *)
Definition call (self : Message) : string :=
  match self with
  | Quit => "Quit"
  | Move x y => "Move with x: " ++ show_Z x ++ " y: " ++ show_Z y
  | Write m => "Write with " ++ m
  | ChangeColor a b c =>
    "ChangeColor with a: " ++ show_Z a ++ ", b: " ++ show_Z b ++ ", c: " ++ show_Z c
  end.

(** [main] (lines 27-38): [call] on each message of the array, in order. *)
Definition main : list string :=
  map call [Quit; Move 10 20; Write "marcelo"; ChangeColor 10 20 30].

End Messages.

Module Optionals.

(** [sum_optionals] (lines 1-8): the four arms of the [match] on the
    pair; [x + y] is checked [i8] addition. *)
Definition sum_optionals (a b : option Z) : outcome Z :=
  match a, b with
  | None, None => Returns 0%Z
  | Some x, Some y => add I8 x y
  | Some x, None => Returns x
  | None, Some x => Returns x
  end.

(** [main] (lines 10-15): the four sums it prints. *)
Definition main : outcome (list string) :=
  (let? s1 := sum_optionals None None in
   let? s2 := sum_optionals (Some 10%Z) None in
   let? s3 := sum_optionals None (Some 20%Z) in
   let? s4 := sum_optionals (Some 20%Z) (Some 30%Z) in
   Returns (map Str.show_Z [s1; s2; s3; s4]))%rust.

End Optionals.

Module Coins.

(** [enum Coin] (lines 1-6). *)
Inductive Coin : Set := Penny | Nickel | Dime | Quarter.

(** [to_cents] (lines 8-15). *)
Definition to_cents (coin : Coin) : Z :=
  match coin with
  | Penny => 1
  | Nickel => 5
  | Dime => 10
  | Quarter => 25
  end.

(** [main] (lines 17-22). *)
Definition main : list string :=
  map (fun c => Str.show_Z (to_cents c) ++ " cents") [Penny; Nickel; Dime; Quarter].

End Coins.

Module StateCoins.

(** [enum UsState] (lines 1-6) and [enum Coin] (lines 8-13). *)
Inductive UsState : Set := Alabama | Alaska.
Inductive Coin : Set := Penny | Nickel | Dime | Quarter (state : UsState).

(** [{:?}] of [UsState], from [#[derive(Debug)]]. *)
Definition debug_state (s : UsState) : string :=
  match s with Alabama => "Alabama" | Alaska => "Alaska" end.

(** [to_cents] (lines 15-25): the value, and the line the [Quarter] arm
    prints before returning. *)
Definition to_cents (coin : Coin) : list string * Z :=
  match coin with
  | Penny => ([], 1%Z)
  | Nickel => ([], 5%Z)
  | Dime => ([], 10%Z)
  | Quarter state => (["State quarter from " ++ debug_state state ++ "!"], 25%Z)
  end.

(** [main] (lines 27-32): each call's own line first, then the value. *)
Definition main : list string :=
  flat_map (fun c => let (out, v) := to_cents c in app out [Str.show_Z v ++ " cents"])
    [Penny; Nickel; Dime; Quarter Alabama].

End StateCoins.

Module Spreadsheet.

(** [enum SpreadsheetCell] (lines 1-5). *)
Inductive SpreadsheetCell : Set :=
| Int (i : Z)
| Float (f : float)
| Text (t : string).

(** A float literal of the source, read as [rustc] reads it: rounded to
    the nearest [f64]. *)
Definition f64_lit (s : string) : float :=
  match Dec2Flt.from_str FloatTy.F64 s with
  | Ok x => FloatTy.of_f64 x
  | Err _ => nan
  end.

(** The vector of lines 8-16. *)
Definition row : list SpreadsheetCell :=
  [Int 3; Text "blue"; Float (f64_lit "10.12"); Int 7; Float (f64_lit "21.04");
   Text "yellow"; Float (f64_lit "29.01")].

(** The [match] of lines 19-23: the line printed for a cell. *)
Definition describe (r : SpreadsheetCell) : string :=
  match r with
  | Int i => "This is an Int cell, with value: " ++ Str.show_Z i
  | Float f => "This is a Float cell, with value: " ++ Flt2Dec.display FloatTy.F64 (FloatTy.to_f64 f)
  | Text t => "This is an Text cell, with value: " ++ t
  end.

(** [main] (lines 7-25): [for r in row] consumes the vector in order. *)
Definition main : list string := map describe row.

End Spreadsheet.

Module Concat.

(** [main] (lines 1-9): [s1 + &s2] moves [s1] and appends [s2]. *)
Definition main : list string :=
  let s1 := "Hello, " in
  let s2 := "world!" in
  let s3 := s1 ++ s2 in
  ["s2 " ++ s2; "s3 " ++ s3].

End Concat.

Module Statuses.

(** [enum Status { Value(u32), Stop }] (lines 1-4). *)
Inductive Status : Set := Value (v : Z) | Stop.

(** [(0u32..20).map(Status::Value).collect()] (lines 7-10). *)
Definition list_of_statuses : list Status :=
  map (fun n => Value (Z.of_nat n)) (seq 0 20).

End Statuses.

(** ** Theorems *)
Module EnumsProofs.

(** C19. [sum_optionals] adds the values that are present (an absent one
    counts as 0) and panics with an [i8] addition overflow exactly when
    both are present and their sum leaves [-128..=127]. *)
Theorem sum_optionals_bounds (a b : option Z) :
  (forall x, a = Some x -> in_range I8 x = true) ->
  (forall y, b = Some y -> in_range I8 y = true) ->
  Optionals.sum_optionals a b =
  let s := (match a with Some x => x | None => 0 end + match b with Some y => y | None => 0 end)%Z in
  if in_range I8 s then Returns s else Panics (ArithOverflow OpAdd).
Proof.
  intros Ha Hb. destruct a as [x|], b as [y|]; cbn -[in_range];
    rewrite ?Z.add_0_r; try reflexivity.
  - now rewrite (Ha x eq_refl).
  - now rewrite (Hb y eq_refl).
Qed.

Lemma sum_optionals_bounds_witness :
  Optionals.sum_optionals (Some 100%Z) (Some 100%Z) = Panics (ArithOverflow OpAdd).
Proof.
  exact (sum_optionals_bounds (Some 100%Z) (Some 100%Z)
           (fun x H => ltac:(injection H as <-; reflexivity))
           (fun y H => ltac:(injection H as <-; reflexivity))).
Defined.

(** The coin of example 7 that a coin of example 8 stands for. *)
Definition forget_state (c : StateCoins.Coin) : Coins.Coin :=
  match c with
  | StateCoins.Penny => Coins.Penny
  | StateCoins.Nickel => Coins.Nickel
  | StateCoins.Dime => Coins.Dime
  | StateCoins.Quarter _ => Coins.Quarter
  end.

(** C20. The two versions of [to_cents] agree on every coin, and the
    version of example 8 prints a line for quarters only. *)
Theorem to_cents_agree (c : StateCoins.Coin) :
  snd (StateCoins.to_cents c) = Coins.to_cents (forget_state c) /\
  (fst (StateCoins.to_cents c) <> [] <-> exists s, c = StateCoins.Quarter s).
Proof.
  destruct c; cbn; split; try reflexivity; split;
    try (intros H; exfalso; apply H; reflexivity);
    try (intros [s Hs]; discriminate Hs).
  - intros _. eexists. reflexivity.
  - discriminate.
Qed.


End EnumsProofs.
