(* ===== verification/MessageIndex.v ===== *)
(** * Messages of [src/chapters/chapter-8/example9.rs]

    The four message structs, the enum [Message] and [Message::call] (the
    line each variant prints).  [main] is not modelled: lines 45-46 call
    [entry().or_insert()] on [scores], a name that is not in scope, so the
    file does not compile and [main] has no behaviour to model; applying
    the two calls to [index] instead would be a guess at the intended
    program, not a translation of this one. *)

From Stdlib Require Import ZArith String.
From S2P Require Import Prelude RustStr.
Local Open Scope string_scope.

Module MessageIndex.

(** The structs of lines 3-9, one per variant below: a unit struct,
    a struct with named fields and two tuple structs. *)
Record QuitMessage : Set := mkQuitMessage {}.
Record MoveMessage : Set := mkMoveMessage { x : Z; y : Z }.
Record WriteMessage : Set := mkWriteMessage { write_0 : string }.
Record ChangeColorMessage : Set := mkChangeColorMessage { color_0 : Z; color_1 : Z; color_2 : Z }.

(** [enum Message] (lines 11-16). *)
Inductive Message : Set :=
| Quit
| Move (x y : Z)
| Write (m : string)
| ChangeColor (a b c : Z).

(** [Message::call] (lines 18-29): the line it prints. *)
Definition call (self : Message) : string :=
  match self with
  | Quit => "Quit"
  | Move x y => "Move with x: " ++ Str.show_Z x ++ " y: " ++ Str.show_Z y
  | Write m => "Write with " ++ m
  | ChangeColor a b c =>
    "ChangeColor with a: " ++ Str.show_Z a ++ ", b: " ++ Str.show_Z b ++ ", c: " ++ Str.show_Z c
  end.

End MessageIndex.
