(* ===== verification/OpenFile.v ===== *)
(** * Opening a file: [src/chapters/chapter-9/errors/src/result1.rs]

    [main] calls [File::open("hello.txt")] and matches on the [Result]:
    [Ok(file)] prints the file with [{:?}], [Err(error)] panics with the
    error's [{:?}] in the message.  The file system is the environment
    [fs]: what [open] returns for a path (a [File] handle, or the
    operating system's error, an [IO.io_error]).  The [Debug] text of a
    [File] is that of the standard library on Unix, [File { fd: .., path:
    .., read: .., write: .. }]; that of the error is [IO.debug_error]. *)

From Stdlib Require Import ZArith List String Ascii.
From S2P Require Import Prelude RustStr RustIO.
Import ListNotations.
Open Scope string_scope.

Module OpenFile.
Import Str IO.

(** An open [std::fs::File]: its descriptor, the path the descriptor
    refers to, and how it was opened ([File::open] opens for reading). *)
Record File : Set := mkFile { fd : Z; path : string; read : bool; write : bool }.

(** The file system, as what opening each path yields. *)
Record fs : Type := mkFs { open_path : string -> result File io_error }.

(** [File::open(path)]. *)
Definition open (env : fs) (p : string) : result File io_error := env.(open_path) p.

(** [{:?}] of a [File] on Unix. *)
Definition debug_file (f : File) : string :=
  "File { fd: " ++ show_Z f.(fd) ++ ", path: " ++ debug_str f.(path) ++
  ", read: " ++ show_bool f.(read) ++ ", write: " ++ show_bool f.(write) ++ " }".

(** [fn main] (lines 3-12): the line printed, or the panic. *)
Definition main (env : fs) : list string * outcome unit :=
  match open env "hello.txt" with
  | Ok file => ([debug_file file], Returns tt)
  | Err error =>
    ([], Panics (ExplicitPanic ("There was a problem opening the file: " ++ debug_error error)))
  end.

(** [ENOENT]: what [open] returns for a path that does not exist. *)
Definition enoent : io_error := Os 2 NotFound "No such file or directory".

End OpenFile.

(** ** Theorems *)
Module OpenFileProofs.
Import IO OpenFile.

(** C21. [main] panics exactly when [File::open] fails, and then with the
    error's [Debug] text in the message; when [hello.txt] does not exist
    the message is "There was a problem opening the file: Os { code: 2,
    kind: NotFound, message: "No such file or directory" }".  Otherwise
    it prints the handle and returns. *)
Theorem main_open_result (env : fs) :
  (forall e, open env "hello.txt" = Err e ->
   main env = ([], Panics (ExplicitPanic ("There was a problem opening the file: " ++ debug_error e)))) /\
  (forall f, open env "hello.txt" = Ok f -> main env = ([debug_file f], Returns tt)) /\
  (open env "hello.txt" = Err enoent ->
   main env = ([], Panics (ExplicitPanic
     ("There was a problem opening the file: Os { code: 2, kind: NotFound, message: " ++
      String quote ("No such file or directory" ++ String quote " }"))))).
Proof.
  unfold main. split; [|split]; [intros e H | intros f H | intros H]; rewrite H; reflexivity.
Qed.

Lemma main_open_result_witness :
  main (mkFs (fun _ => Err enoent)) =
  ([], Panics (ExplicitPanic ("There was a problem opening the file: " ++ debug_error enoent))).
Proof.
  destruct (main_open_result (mkFs (fun _ => Err enoent))) as [H _].
  exact (H enoent eq_refl).
Defined.

End OpenFileProofs.
