(* ===== verification/ModulePaths.v ===== *)
(** * Module paths and a random number: [src/chapters/chapter-7/my-project/src/main.rs]

    [main] calls [sound::instrument::clarinet] twice, once by its absolute
    path and once by its relative path, then draws a number with
    [rand::thread_rng().gen_range(1, 101)] and prints it.  The module
    [sound] is declared ([mod sound;]) but its file is not in the
    repository, so [clarinet] is a parameter of the model: the lines it
    prints.  Both paths name the same function, so both calls print those
    lines.  The generator of [rand] is an interface, the class [Rng]:
    [gen_range] on a generator state.  The program does not build as
    committed and its one output is a random draw, so no property of it is
    claimed beyond what the model states. *)

From Stdlib Require Import ZArith List String.
From S2P Require Import Prelude RustStr.
Import ListNotations.
Local Open Scope Z_scope.

Module Rand.

(** [Rng::gen_range(low, high)] (rand 0.6 and 0.7, two arguments): a value
    and the generator's next state. *)
Class Rng (G : Type) := { gen_range : G -> Z -> Z -> Z * G }.

End Rand.

Module ModulePaths.
Import Rand.

Section Main.
Context {G : Type} `{Rng G}.

(** What [sound::instrument::clarinet()] prints: [mod sound] is not in
    the repository. *)
Variable clarinet : list string.

(** [fn main] (lines 4-14): the lines printed and the generator's state
    after the draw; [thread_rng] is the generator [g]. *)
Definition main (g : G) : list string * G :=
  let out := clarinet ++ clarinet in
  let (secret_number, g') := gen_range g 1 101 in
  (out ++ [Str.show_Z secret_number], g').

End Main.
End ModulePaths.
