(* ===== verification/Threads.v ===== *)
(** * Two printing threads: [src/chapters/chapter-16/example02.rs]

    [main] spawns two threads, each running [for i in 1..100] with a
    [println!] and a one-millisecond sleep, then sleeps one second and
    returns, which ends the process and the threads with it: the threads
    are never joined.  The model is a step relation on [state]: the next
    value of each loop, whether [main] is still running, and the lines
    printed so far, as events [(thread, i)] ([line] renders them).  Each
    [println!] takes the stdout lock, so lines never mix.  The sleeps are
    not modelled: a sleep guarantees nothing about what the other threads
    have done when it ends, so [main]'s exit may come at any point and
    the untimed relation allows exactly the schedules the operating
    system may produce.  The theorem characterises the printouts the
    program can produce: exactly the interleavings of a prefix of each
    thread's lines. *)

From Stdlib Require Import ZArith List String Lia.
From S2P Require Import Prelude RustStr.
Import ListNotations.
Open Scope nat_scope.
Open Scope string_scope.

Module Threads.

Record state : Set := mkState {
  next1 : nat;
  next2 : nat;
  main_running : bool;
  printed : list (nat * nat)
}.

(** Both threads spawned (lines 5-16), nothing printed yet. *)
Definition init : state := mkState 1 1 true [].

(** The text of [println!("T1: {}", i)] and [println!("T2: {}", i)]. *)
Definition line (e : nat * nat) : string :=
  "T" ++ Str.show_Z (Z.of_nat (fst e)) ++ ": " ++ Str.show_Z (Z.of_nat (snd e)).

Inductive step : state -> state -> Prop :=
(** An iteration of the first thread's loop (lines 6-9). *)
| step_t1 n1 n2 out :
    (n1 < 100)%nat ->
    step (mkState n1 n2 true out) (mkState (S n1) n2 true (app out [(1, n1)]))
(** An iteration of the second thread's loop (lines 12-15). *)
| step_t2 n1 n2 out :
    (n2 < 100)%nat ->
    step (mkState n1 n2 true out) (mkState n1 (S n2) true (app out [(2, n2)]))
(** [main] returns after its sleep (line 19), ending the process. *)
| step_exit n1 n2 out :
    step (mkState n1 n2 true out) (mkState n1 n2 false out).

(** The events of thread [k], in order. *)
Definition proj (k : nat) (out : list (nat * nat)) : list (nat * nat) :=
  filter (fun e => Nat.eqb (fst e) k) out.

(** The printouts a run can have produced so far. *)
Definition possible_output (out : list (nat * nat)) : Prop :=
  exists s, star step init s /\ printed s = out.

(** The shape of a printout: only the two threads print, and each printed
    the first [a] (resp. [b]) values of its loop, in order. *)
Definition interleaving (out : list (nat * nat)) : Prop :=
  exists a b, (a <= 99)%nat /\ (b <= 99)%nat /\
  proj 1 out = map (pair 1) (seq 1 a) /\ proj 2 out = map (pair 2) (seq 1 b) /\
  Forall (fun e => fst e = 1 \/ fst e = 2) out.

End Threads.

(** ** Theorems *)
Module ThreadsProofs.
Import Threads.
Local Open Scope list_scope.

Lemma proj_app k l1 l2 : proj k (l1 ++ l2) = proj k l1 ++ proj k l2.
Proof. apply filter_app. Qed.

Lemma proj_one k j i : proj k [(j, i)] = if Nat.eqb j k then [(j, i)] else [].
Proof. reflexivity. Qed.

Lemma seq_snoc_pair (k n : nat) :
  map (pair k) (seq 1 (S n)) = map (pair k) (seq 1 n) ++ [(k, S n)].
Proof. rewrite seq_S, map_app. reflexivity. Qed.

(** What every reachable state satisfies. *)
Definition inv (s : state) : Prop :=
  1 <= next1 s <= 100 /\ 1 <= next2 s <= 100 /\
  proj 1 (printed s) = map (pair 1) (seq 1 (next1 s - 1)) /\
  proj 2 (printed s) = map (pair 2) (seq 1 (next2 s - 1)) /\
  Forall (fun e => fst e = 1 \/ fst e = 2) (printed s).

Lemma inv_step s s' : inv s -> step s s' -> inv s'.
Proof.
  intros (H1 & H2 & P1 & P2 & F) Hs.
  destruct Hs as [n1 n2 out Hn|n1 n2 out Hn|n1 n2 out];
    unfold inv; cbn [next1 next2 printed] in *.
  - split; [lia|]. split; [lia|]. split; [|split].
    + rewrite proj_app, P1, proj_one. cbn [Nat.eqb].
      replace (S n1 - 1) with (S (n1 - 1)) by lia. rewrite seq_snoc_pair.
      replace (S (n1 - 1)) with n1 by lia. reflexivity.
    + now rewrite proj_app, P2, proj_one, ?app_nil_r.
    + apply Forall_app. split; [exact F|]. constructor; [cbn; auto | constructor].
  - split; [lia|]. split; [lia|]. split; [|split].
    + now rewrite proj_app, P1, proj_one, ?app_nil_r.
    + rewrite proj_app, P2, proj_one. cbn [Nat.eqb].
      replace (S n2 - 1) with (S (n2 - 1)) by lia. rewrite seq_snoc_pair.
      replace (S (n2 - 1)) with n2 by lia. reflexivity.
    + apply Forall_app. split; [exact F|]. constructor; [cbn; auto | constructor].
  - repeat split; auto; lia.
Qed.

Lemma reach_interleaving out a b :
  a <= 99 -> b <= 99 ->
  proj 1 out = map (pair 1) (seq 1 a) -> proj 2 out = map (pair 2) (seq 1 b) ->
  Forall (fun e => fst e = 1 \/ fst e = 2) out ->
  star step init (mkState (S a) (S b) true out).
Proof.
  revert a b. induction out as [|e out IH] using rev_ind; intros a b Ha Hb P1 P2 F.
  - destruct a; [|discriminate P1]. destruct b; [|discriminate P2]. apply star_refl.
  - apply Forall_app in F as [F Fe]. inversion Fe as [|? ? He _]; subst.
    rewrite proj_app in P1, P2. destruct e as [j i]. cbn in He.
    destruct He as [Hj|Hj]; subst j; rewrite proj_one in P1, P2; cbn in P1, P2.
    + rewrite app_nil_r in P2.
      destruct a as [|a]; [destruct (proj 1 out); discriminate P1|].
      rewrite seq_snoc_pair in P1. apply app_inj_tail in P1 as [P1 Ei].
      injection Ei as ->.
      eapply star_right; [apply (IH a b); auto; lia|]. constructor. lia.
    + rewrite app_nil_r in P1.
      destruct b as [|b]; [destruct (proj 2 out); discriminate P2|].
      rewrite seq_snoc_pair in P2. apply app_inj_tail in P2 as [P2 Ei].
      injection Ei as ->.
      eapply star_right; [apply (IH a b); auto; lia|]. constructor. lia.
Qed.

(** C15. The printouts the program can produce are exactly the
    interleavings of a prefix of "T1: 1" ... "T1: 99" with a prefix of
    "T2: 1" ... "T2: 99": each thread's lines appear in loop order, and
    every such interleaving happens in some run. *)
Theorem possible_output_iff (out : list (nat * nat)) :
  possible_output out <-> interleaving out.
Proof.
  split.
  - intros (s & Hs & <-).
    assert (I : inv s).
    { apply (star_invariant step inv inv_step init s Hs).
      repeat split; cbn; try lia; constructor. }
    destruct I as (H1 & H2 & P1 & P2 & F).
    exists (next1 s - 1), (next2 s - 1). repeat split; auto; lia.
  - intros (a & b & Ha & Hb & P1 & P2 & F).
    exists (mkState (S a) (S b) true out). split; [|reflexivity].
    now apply reach_interleaving.
Qed.

Lemma possible_output_iff_witness :
  interleaving [(2, 1); (1, 1)] /\ possible_output [(2, 1); (1, 1)].
Proof.
  assert (H : interleaving [(2, 1); (1, 1)]).
  { exists 1, 1. split; [lia|]. split; [lia|]. split; [reflexivity|]. split; [reflexivity|].
    constructor; [right; reflexivity|]. constructor; [left; reflexivity|]. constructor. }
  split; [exact H | apply (proj2 (possible_output_iff _)); exact H].
Defined.



End ThreadsProofs.
