(* ===== verification/Temperature.v ===== *)
(** * The temperature converter: [src/chapters/chapter-3/chapter-exercises/src/temperature-converter.rs]

    [main] prints a title and then loops forever: it prints the menu, reads
    a line, keeps only [1] or [2] ([trim] then [parse()], whose type is
    inferred as [i32]: the literal patterns [Ok(1)] and [Ok(2)] leave it
    open), reads a value ([parse::<f64>]) and prints the conversion.  Standard input is
    the byte stream of [RustIO]: each [read_line(..).expect(..)] takes a
    line, or panics when its bytes are not UTF-8; at the end of the
    stream it returns an empty line.  [iteration] is one pass of the loop
    body (lines 7-41), with [continue] as an early end of the pass;
    [run] is [fuel] passes, ended early only by a panic.  The conversions
    use Rocq's primitive binary64 floats, the IEEE arithmetic of Rust's
    [f64], and the literal [1.8] rounds to the same double.  [parse_f64]
    is [<f64 as FromStr>::from_str] and [show_f64] the [Display] of [f64],
    both from [RustFloat]; what is printed is recorded as [event]s and
    [lines] turns them into the text of the [println!]s.  The theorems: a
    valid choice converts with the formula of its branch; an invalid one
    restarts the loop, and bytes that are not UTF-8 end the program with
    [expect]'s panic; and at the end of the input the loop prints the
    menu forever. *)

From Corelib Require Import PrimFloat.
From Stdlib Require Import ZArith List String.
From S2P Require Import Prelude RustStr RustFloat RustIO.
Import ListNotations.
Open Scope string_scope.

Module Temperature.

Set Warnings "-inexact-float".

(** Line 36: [(source * 1.8) + 32.0]. *)
Definition c_to_f (source : float) : float := ((source * 1.8) + 32.0)%float.

(** Line 39: [(source - 32.0) * 1.8]. *)
Definition f_to_c (source : float) : float := ((source - 32.0) * 1.8)%float.

(** What the program prints: the title (line 4), the menu (lines 7-8),
    the prompt (line 23) and a conversion (lines 37 and 40). *)
Inductive event : Set :=
| Title
| Menu
| AskValue
| CtoF (source result : float)
| FtoC (source result : float).

(** [input.trim().parse::<f64>()] (line 30): [Some] for [Ok]. *)
Definition parse_f64 (s : string) : option float :=
  match Dec2Flt.from_str FloatTy.F64 s with
  | Ok x => Some (FloatTy.of_f64 x)
  | Err _ => None
  end.

(** [{}] of an [f64] (lines 37 and 40). *)
Definition show_f64 (x : float) : string := Flt2Dec.display FloatTy.F64 (FloatTy.to_f64 x).

(** The lines each event prints. *)
Definition lines (ev : event) : list string :=
  match ev with
  | Title => ["Temperature Converter"]
  | Menu => ["1) Convert Celsius to Fahrenheit"; "2) Convert Fahrenheit to Celsius"]
  | AskValue => ["Please input the source value"]
  | CtoF source farenheit => [show_f64 source ++ " Celsius is " ++ show_f64 farenheit ++ " in Fahrenheit"]
  | FtoC source celsius => [show_f64 source ++ " Fahrenheit is " ++ show_f64 celsius ++ " Celsius"]
  end.

(** What the events print, in order. *)
Definition stdout (evs : list event) : list string := flat_map lines evs.

(** [io::stdin().read_line(&mut s).expect("Failed to read your input")]
    (lines 10-13 and 25-28) on a fresh [String]: the line, or the panic;
    and the stream left. *)
Definition read_input (stdin : string) : outcome string * string :=
  let (r, rest) := IO.read_line stdin in (IO.expect r "Failed to read your input", rest).

(** One pass of [loop] (lines 7-41) on the bytes of standard input: the
    events printed, and the stream left for the next pass or the panic
    that ends the program. *)
Definition iteration (stdin : string) : list event * outcome string :=
  let (option, stdin) := read_input stdin in
  match option with
  | Panics p => ([Menu], Panics p)
  | OutOfFuel => ([Menu], OutOfFuel)
  | Returns option =>
    match Str.from_str I32 (Str.trim option) with
    | Ok o =>
      if orb (o =? 1)%Z (o =? 2)%Z then
        let (input, stdin) := read_input stdin in
        match input with
        | Panics p => ([Menu; AskValue], Panics p)
        | OutOfFuel => ([Menu; AskValue], OutOfFuel)
        | Returns input =>
          match parse_f64 (Str.trim input) with
          | None => ([Menu; AskValue], Returns stdin)
          | Some source =>
            ([Menu; AskValue;
              if (o =? 1)%Z then CtoF source (c_to_f source) else FtoC source (f_to_c source)],
             Returns stdin)
          end
        end
      else ([Menu], Returns stdin)
    | Err _ => ([Menu], Returns stdin)
    end
  end.

(** [fuel] passes of the loop, which has no exit: the events printed, and
    the panic that ended the run, or [OutOfFuel] when it was still
    running. *)
Fixpoint run (fuel : nat) (stdin : string) : list event * outcome unit :=
  match fuel with
  | O => ([], OutOfFuel)
  | S f =>
    let (evs, r) := iteration stdin in
    match r with
    | Returns stdin' => let (evs', res) := run f stdin' in (app evs evs', res)
    | Panics p => (evs, Panics p)
    | OutOfFuel => (evs, OutOfFuel)
    end
  end.

(** [fn main] (lines 3-43) for its first [fuel] passes. *)
Definition main (fuel : nat) (stdin : string) : list event * outcome unit :=
  let (evs, r) := run fuel stdin in (Title :: evs, r).

End Temperature.

(** ** Theorems *)
Module TemperatureProofs.
Import Temperature.

(** C12. When the first line read is [1] or [2] and the second parses as
    an [f64], one pass prints the menu, the prompt and the conversion of
    the chosen branch, and consumes the two lines. *)
Theorem valid_choice_converts (stdin s1 s2 l1 l2 : string) (o : Z) (source : float) :
  IO.read_line stdin = (Ok l1, s1) -> Str.from_str I32 (Str.trim l1) = Ok o -> (o = 1 \/ o = 2)%Z ->
  IO.read_line s1 = (Ok l2, s2) -> parse_f64 (Str.trim l2) = Some source ->
  iteration stdin =
  ([Menu; AskValue;
    if (o =? 1)%Z then CtoF source (c_to_f source) else FtoC source (f_to_c source)], Returns s2).
Proof.
  intros H1 Ho Hr H2 Hp. unfold iteration, read_input. rewrite H1. cbn [IO.expect]. rewrite Ho.
  rewrite H2. cbn [IO.expect].
  destruct Hr as [->| ->]; cbn [Z.eqb orb Pos.eqb]; now rewrite Hp.
Qed.

Lemma valid_choice_converts_witness :
  iteration ("2" ++ Str.newline ++ "212" ++ Str.newline) =
  ([Menu; AskValue; FtoC 212%float (f_to_c 212%float)], Returns "").
Proof.
  exact (valid_choice_converts ("2" ++ Str.newline ++ "212" ++ Str.newline) ("212" ++ Str.newline) ""
           ("2" ++ Str.newline) ("212" ++ Str.newline) 2%Z 212%float
           eq_refl eq_refl (or_intror eq_refl) eq_refl eq_refl).
Defined.

(** C13. The ways a pass ends early: a first line that is not [1] or [2]
    once trimmed and parsed as an [i32] (another number, a number out of
    the [i32] range, a word, an empty line) ends it after the menu, consuming only
    that line; a value line that does not parse as an [f64] ends it after
    the prompt; and bytes that are not UTF-8 make [read_line] fail and
    [expect] panic, which ends the program. *)
Theorem invalid_choice_restarts (stdin s1 s2 l l2 : string) (e : IO.io_error) :
  (IO.read_line stdin = (Ok l, s1) ->
   (forall o, Str.from_str I32 (Str.trim l) = Ok o -> o <> 1%Z /\ o <> 2%Z) ->
   iteration stdin = ([Menu], Returns s1)) /\
  (IO.read_line stdin = (Ok l, s1) -> Str.from_str I32 (Str.trim l) = Ok 1%Z ->
   IO.read_line s1 = (Ok l2, s2) -> parse_f64 (Str.trim l2) = None ->
   iteration stdin = ([Menu; AskValue], Returns s2)) /\
  (IO.read_line stdin = (Err e, s1) ->
   iteration stdin =
   ([Menu], Panics (ExplicitPanic ("Failed to read your input: " ++ IO.debug_error e)))).
Proof.
  unfold iteration, read_input. split; [|split].
  - intros H1 H. rewrite H1. cbn [IO.expect].
    destruct (Str.from_str I32 (Str.trim l)) as [o|err] eqn:E; [|reflexivity].
    destruct (H o eq_refl) as [Ha Hb].
    apply Z.eqb_neq in Ha, Hb. now rewrite Ha, Hb.
  - intros H1 Ho H2 Hp. rewrite H1. cbn [IO.expect]. rewrite Ho. cbn. rewrite H2. cbn. now rewrite Hp.
  - intros H1. now rewrite H1.
Qed.

Lemma invalid_choice_restarts_witness :
  iteration ("300" ++ Str.newline ++ "1") = ([Menu], Returns "1") /\
  iteration ("1" ++ Str.newline ++ "hot") = ([Menu; AskValue], Returns "") /\
  iteration (String (Ascii.ascii_of_nat 255) Str.newline) =
    ([Menu], Panics (ExplicitPanic ("Failed to read your input: " ++ IO.debug_error IO.invalid_utf8))).
Proof.
  destruct (invalid_choice_restarts ("300" ++ Str.newline ++ "1") "1" "" ("300" ++ Str.newline) "hot"
              IO.invalid_utf8) as [H1 _].
  destruct (invalid_choice_restarts ("1" ++ Str.newline ++ "hot") "hot" "" ("1" ++ Str.newline) "hot"
              IO.invalid_utf8) as [_ [H2 _]].
  destruct (invalid_choice_restarts (String (Ascii.ascii_of_nat 255) Str.newline) "" "" "" ""
              IO.invalid_utf8) as [_ [_ H3]].
  split; [exact (H1 eq_refl (fun o H => ltac:(injection H as <-; split; discriminate)))|].
  split; [exact (H2 eq_refl eq_refl eq_refl eq_refl) | exact (H3 eq_refl)].
Defined.


Lemma iteration_eof : iteration "" = ([Menu], Returns "").
Proof. reflexivity. Qed.

(** C14. At the end of the input [read_line] keeps returning an empty
    line, which never parses, so the loop prints the menu forever: every
    number of passes prints only menus and the program is still running
    (it never exits, and never panics). *)
Theorem eof_spins (fuel : nat) : run fuel "" = (repeat Menu fuel, OutOfFuel).
Proof.
  induction fuel as [|fuel IH]; [reflexivity|].
  cbn [run]. rewrite iteration_eof, IH. reflexivity.
Qed.

End TemperatureProofs.
